(** * Ninju: a shallow embedding of [src/ninju.py]

    Ninju assembles a ninja build description: configuration code calls
    methods of one [Ninju] session object, every call appends tasks to the
    session's [_seq] list, and [_generate] walks that list and hands each
    task to a [ninja_syntax.Writer].

    The embedding follows the Python source function by function.  Python
    values are the inductive [pyval]; the session object is the record
    [Ninju], threaded through a state-and-exception monad [M]; the writer is
    the list of the calls made on it.

    Left out: the [NinjuWarning] issued for an executable that is not
    found, the message printed before [exit(1)], and failures of [open].
    [os.path] is [posixpath].  Integers are unbounded, as in Python. *)

From Stdlib Require Import ZArith Lia Ascii String.
From stdpp Require Import gmap strings list fin_maps pretty.

Local Open Scope string_scope.
Local Open Scope Z_scope.
Local Open Scope list_scope.

(** ** Python values *)

(** The values that reach the functions under study.  [PFiles] is an
    instance of the class [_Files] (its [files] attribute), [PTarget] an
    instance of [_Target] (its [target] attribute); both also hold a
    reference [_n] to the one session they belong to, which the state monad
    below makes implicit. *)
#[warnings="-register-all"]
Inductive pyval : Type :=
  | PNone
  | PBool (b : bool)
  | PInt (z : Z)
  | PStr (s : string)
  | PList (l : list pyval)
  | PTuple (l : list pyval)
  | PFiles (files : list pyval)
  | PTarget (target : pyval).

(** Truth value of an object, as [not x] and [if x] compute it.  [_Files]
    and [_Target] define neither [__bool__] nor [__len__] (special methods
    are looked up on the type, so [__getattr__] plays no part): their
    instances are always true. *)
Definition py_truth (v : pyval) : bool :=
  match v with
  | PNone => false
  | PBool b => b
  | PInt z => negb (z =? 0)
  | PStr s => negb (String.eqb s "")
  | PList l | PTuple l => match l with [] => false | _ => true end
  | PFiles _ => true
  | PTarget _ => true
  end.

(** [v == s] for a string literal [s]. *)
Definition py_eq_str (v : pyval) (s : string) : bool :=
  match v with
  | PStr s' => String.eqb s' s
  | _ => false
  end.

(** [isinstance(v, int)]: [bool] is a subclass of [int]. *)
Definition is_int (v : pyval) : option Z :=
  match v with
  | PInt z => Some z
  | PBool b => Some (if b then 1 else 0)
  | _ => None
  end.

(** [str.format] of an integer or a boolean. *)
Definition format_int (v : pyval) : string :=
  match v with
  | PBool true => "True"
  | PBool false => "False"
  | PInt z => pretty z
  | _ => ""
  end.

(** Exceptions raised by the module. *)
Inductive exn : Type :=
  | ConfigurationError (msg : string)
  | GeneratorError (msg : string)
  | AttributeError
  | TypeError
  | SystemExit (code : Z).

Inductive result (A : Type) : Type :=
  | Ok (a : A)
  | Raise (e : exn).
Arguments Ok {A} a.
Arguments Raise {A} e.

(** ** The reference algebra: [_Files.__init__] *)

(** One iteration of the loop [for f in files] of [_Files.__init__]; [acc]
    is [self.files]. *)
Definition _Files_step (acc : list pyval) (f : pyval) : list pyval :=
  match f with
  | PNone => acc                      (* continue *)
  | PFiles fs => acc ++ fs            (* self.files.extend(f.files) *)
  | PTarget t => acc ++ [t]           (* self.files.append(f.target) *)
  | PList l => acc ++ l               (* self.files.extend(f) *)
  | PTuple l => acc ++ l              (* self.files.extend(f) *)
  | _ => acc ++ [f]                   (* self.files.append(f) *)
  end.

(** [_Files(ninju, *files)]. *)
Definition _Files (files : list pyval) : pyval :=
  PFiles (fold_left _Files_step files []).

(** [_Target(ninju, target)]. *)
Definition _Target (target : pyval) : pyval := PTarget target.

(** [posixpath.join(a, *p)]. *)
Definition starts_with_sep (s : string) : bool :=
  match s with
  | String c _ => Ascii.eqb c "/"%char
  | EmptyString => false
  end.

Fixpoint ends_with_sep (s : string) : bool :=
  match s with
  | EmptyString => false
  | String c EmptyString => Ascii.eqb c "/"%char
  | String _ s' => ends_with_sep s'
  end.

Definition path_join_step (path b : string) : string :=
  if starts_with_sep b then b
  else if String.eqb path "" || ends_with_sep path then path +:+ b
  else path +:+ "/" +:+ b.

Definition os_path_join (a : string) (p : list string) : string :=
  fold_left path_join_step p a.

(** ** Tasks: the entries of [_seq] *)

(** Per-edge variable overrides: a [dict] or [None], passed through to the
    writer untouched. *)
Definition variables := option (list (string * string)).

(** [_NBuildRule]. *)
Record build_rule : Type := mk_build_rule {
  br_name : string;
  br_executable : string;
  br_args : option string;
  br_description : option string;
  br_depfile : option string;
  br_generator : bool;
  br_pool : option string;
  br_restat : bool;
  br_rspfile : option string;
  br_rspfile_content : option string;
  br_deps : option string;
  br_executable_path : string
}.

(** [_NExecRule]. *)
Record exec_rule : Type := mk_exec_rule {
  er_name : string;
  er_executable : string;
  er_args : option string;
  er_description : option string;
  er_rspfile : option string;
  er_rspfile_content : option string;
  er_executable_path : string
}.

(** [_NBuild]. *)
Record build_edge : Type := mk_build_edge {
  b_outputs : list pyval;
  b_rule : string;
  b_inputs : pyval;
  b_implicit : pyval;
  b_order_only : pyval;
  b_variables : variables;
  b_implicit_outputs : pyval
}.

Inductive task : Type :=
  | _NVar (name value : string) (indent : nat)
  | _NPool (name : string) (depth : pyval)
  | _NBuildRule (r : build_rule)
  | _NExecRule (r : exec_rule)
  | _NBuild (b : build_edge)
  | _NPhony (name : pyval) (inputs : pyval)
  | _NDefault (targets : pyval).

(** ** The session object *)

(** [_cmds] and [_exec_cmds] map a command name to the closure returned by
    [build_fn] / [exec_fn]; a closure captures the rule object and the
    session, so the rule stands for it here. *)
Record Ninju : Type := mk_Ninju {
  _build_file : string;
  _build_dir : string;
  _file : string;
  _root_dir : string;
  _seq : list task;
  _name_count : Z;
  _cmds : gmap string build_rule;
  _exec_cmds : gmap string exec_rule;
  _pools : gmap string bool
}.

Definition set_seq (f : list task → list task) (n : Ninju) : Ninju :=
  mk_Ninju (_build_file n) (_build_dir n) (_file n) (_root_dir n)
           (f (_seq n)) (_name_count n) (_cmds n) (_exec_cmds n) (_pools n).
Definition set_name_count (c : Z) (n : Ninju) : Ninju :=
  mk_Ninju (_build_file n) (_build_dir n) (_file n) (_root_dir n)
           (_seq n) c (_cmds n) (_exec_cmds n) (_pools n).
Definition set_cmds (m : gmap string build_rule) (n : Ninju) : Ninju :=
  mk_Ninju (_build_file n) (_build_dir n) (_file n) (_root_dir n)
           (_seq n) (_name_count n) m (_exec_cmds n) (_pools n).
Definition set_exec_cmds (m : gmap string exec_rule) (n : Ninju) : Ninju :=
  mk_Ninju (_build_file n) (_build_dir n) (_file n) (_root_dir n)
           (_seq n) (_name_count n) (_cmds n) m (_pools n).
Definition set_pools (m : gmap string bool) (n : Ninju) : Ninju :=
  mk_Ninju (_build_file n) (_build_dir n) (_file n) (_root_dir n)
           (_seq n) (_name_count n) (_cmds n) (_exec_cmds n) m.

(** ** The monad of methods: session state plus exceptions

    A method takes the session and returns a value or an exception together
    with the session as it left it: what a method did to the object before
    raising stays done. *)
Definition M (A : Type) : Type := Ninju → result A * Ninju.

Definition ret {A} (a : A) : M A := fun n => (Ok a, n).
Definition raise {A} (e : exn) : M A := fun n => (Raise e, n).
Definition bind {A B} (k : A → M B) (m : M A) : M B :=
  fun n => match m n with
           | (Ok a, n') => k a n'
           | (Raise e, n') => (Raise e, n')
           end.

(** stdpp's monad notations: [x ← m; k] and [m;; k]. *)
#[global] Instance M_ret : MRet M := @ret.
#[global] Instance M_bind : MBind M := @bind.

(** Reading an attribute of [self], and updating [self] in place. *)
Definition gets {A} (f : Ninju → A) : M A := fun n => (Ok (f n), n).
Definition modify (f : Ninju → Ninju) : M unit := fun n => (Ok tt, f n).

(** [self._seq.append(v)]. *)
Definition seq_append (v : task) : M unit :=
  modify (set_seq (fun s => s ++ [v])).

(** [Ninju._gen_name]. *)
Definition _gen_name (ext : string) : M string :=
  fun n =>
    let c := _name_count n + 1 in
    (Ok ("${builddir}" +:+ ("/.ninju_" +:+ pretty c +:+ "." +:+ ext)),
     set_name_count c n).

(** [as_list] of the [ninja_syntax] module: [None] gives the empty list, a
    list gives itself, any other value a one-element list. *)
Definition as_list (input : pyval) : list pyval :=
  match input with
  | PNone => []
  | PList l => l
  | _ => [input]
  end.

(** The loop [for i in range(outputs): outs.append(gen_name(ext))]. *)
Fixpoint gen_names (k : nat) (ext : string) (outs : list pyval)
  : M (list pyval) :=
  match k with
  | O => mret outs
  | S k' => name ← _gen_name ext; gen_names k' ext (outs ++ [PStr name])
  end.

(** [_normalize_outputs(outputs, ninju._gen_name, ext)]. *)
Definition _normalize_outputs (outputs : pyval) (ext : string)
  : M (list pyval) :=
  if negb (py_truth outputs) then
    name ← _gen_name ext; mret [PStr name]
  else match is_int outputs with
  | Some k => gen_names (Z.to_nat k) ext []
  | None =>
    match outputs with
    | PFiles fs => mret fs
    | PList l => mret l
    | _ => mret (as_list outputs)
    end
  end.

(** [_is_single_output]. *)
Definition _is_single_output (t : pyval) : bool :=
  negb (match t with
        | PFiles fs => negb (length fs =? 1)%nat
        | PList l | PTuple l => negb (length l =? 1)%nat
        | _ => false
        end).

(** ** The host: what the module takes from its environment

    [which] is [shutil.which]; [str] is the builtin [str] applied to a
    value; [caller_file] is [os.path.abspath(module.__file__)] of the module
    that creates the session and [caller_dir] its [os.path.dirname];
    [getcwd] is [os.getcwd()]; [object_attr] tells, of a name with two
    leading and two trailing underscores, whether the interpreter gives
    it to every instance of a class ([__class__], [__eq__], [__dict__],
    [__doc__], ...: the list depends on the version of Python). *)
Record Host : Type := mk_Host {
  which : string → option string;
  str : pyval → string;
  caller_file : string;
  caller_dir : string;
  getcwd : string;
  NINJU_MODULE_PATH : string;
  NINJA_SYNTAX_MODULE_PATH : string;
  object_attr : string → bool
}.

Definition NINJU_VERSION : string := "0.1.0".
Definition NINJU_URL : string := "https://github.com/frm-adiputra/Ninju".
Definition NINJA_REQUIRED_VERSION : string := "1.7".

(** ** The writer: the calls made on [ninja_syntax.Writer] *)
Inductive wcall : Type :=
  | w_comment (text : string)
  | w_newline
  | w_variable (key value : string) (indent : nat)
  | w_pool (name : string) (depth : pyval)
  | w_rule (name command : string) (description depfile : option string)
           (generator : bool) (pool : option string) (restat : bool)
           (rspfile rspfile_content deps : option string)
  | w_build (outputs : pyval) (rule : string)
            (inputs implicit order_only : option (list string))
            (vars : variables) (implicit_outputs : option (list string))
  | w_default (paths : list string)
  | w_close.

(** [Writer.build(outputs, ...)] of [ninja_syntax] escapes each element of
    [as_list(outputs)] with [escape_path(word)], which is
    [word.replace(...)]: it goes through for strings and raises
    [AttributeError] for a value that has no [replace].  (A [_Files] or a
    [_Target] has none either, as long as no command is named [replace],
    which is taken for granted here.) *)
Definition is_str (v : pyval) : bool :=
  match v with PStr _ => true | _ => false end.

Definition writer_accepts (outputs : pyval) : bool :=
  forallb is_str (as_list outputs).

(** Iterating a value with [for o in t]: a list, a tuple and a [_Files]
    (through [__iter__]) yield their elements, a string its characters;
    the other values are not iterable. *)
Fixpoint chars (s : string) : list pyval :=
  match s with
  | EmptyString => []
  | String c s' => PStr (String c EmptyString) :: chars s'
  end.

Definition py_iter (t : pyval) : result (list pyval) :=
  match t with
  | PList l | PTuple l | PFiles l => Ok l
  | PStr s => Ok (chars s)
  | _ => Raise TypeError
  end.

Section WithHost.
Context (host : Host).

(** [_as_string_list]. *)
Definition _as_string_list (t : pyval) : result (option (list string)) :=
  match t with
  | PNone => Ok None
  | _ => match py_iter t with
         | Ok l => Ok (Some (map (str host) l))
         | Raise e => Raise e
         end
  end.

(** The list [l] filled by [for o in t: l.append(str(o))]. *)
Definition str_each (t : pyval) : result (list string) :=
  match py_iter t with
  | Ok l => Ok (map (str host) l)
  | Raise e => Raise e
  end.

(** The [command] of a rule: [' '.join([executable_path, args])]. *)
Definition rule_command (executable_path : string) (args : option string)
  : string :=
  match args with
  | Some a => executable_path +:+ " " +:+ a
  | None => executable_path
  end.

(** [_NBuild.write]: the one call it makes on the writer, or the exception
    it raises before making it. *)
Definition _NBuild_write (b : build_edge) : result wcall :=
  match b_outputs b with
  | [] => Raise (GeneratorError "no output")
  | _ =>
    let outs := map (str host) (b_outputs b) in
    match _as_string_list (b_inputs b) with
    | Raise e => Raise e
    | Ok ins =>
    match _as_string_list (b_implicit b) with
    | Raise e => Raise e
    | Ok imp =>
    match _as_string_list (b_order_only b) with
    | Raise e => Raise e
    | Ok oo =>
    match _as_string_list (b_implicit_outputs b) with
    | Raise e => Raise e
    | Ok io =>
      Ok (w_build (PList (map PStr outs)) (b_rule b) ins imp oo
                  (b_variables b) io)
    end end end end
  end.

(** [task.write(writer)] for each class of task. *)
Definition write (t : task) : result wcall :=
  match t with
  | _NVar name value indent => Ok (w_variable name value indent)
  | _NPool name depth => Ok (w_pool name depth)
  | _NBuildRule r =>
      Ok (w_rule (br_name r)
                 (rule_command (br_executable_path r) (br_args r))
                 (br_description r) (br_depfile r) (br_generator r)
                 (br_pool r) (br_restat r) (br_rspfile r)
                 (br_rspfile_content r) (br_deps r))
  | _NExecRule r =>
      Ok (w_rule (er_name r)
                 (rule_command (er_executable_path r) (er_args r))
                 (er_description r) None false (Some "console") false
                 (er_rspfile r) (er_rspfile_content r) None)
  | _NBuild b => _NBuild_write b
  | _NPhony name inputs =>
      match str_each inputs with
      | Ok ins =>
          if writer_accepts name
          then Ok (w_build name "phony" (Some ins) None None None None)
          else Raise AttributeError
      | Raise e => Raise e
      end
  | _NDefault targets =>
      match str_each targets with
      | Ok targs => Ok (w_default targs)
      | Raise e => Raise e
      end
  end.

(** The loop of [Ninju._generate] over [self._seq]; [w] is the writer. *)
Fixpoint generate_loop (tasks : list task) (newline : bool)
    (w : list wcall) : result unit * list wcall :=
  match tasks with
  | [] => (Ok tt, w)
  | t :: tasks' =>
    match write t with
    | Raise e => (Raise e, w)
    | Ok c =>
      generate_loop tasks' newline
        (if newline then w ++ [c; w_newline] else w ++ [c])
    end
  end.

Definition header : list wcall :=
  [ w_comment ("This file is generated by Ninju v" +:+ NINJU_VERSION
               +:+ " (" +:+ NINJU_URL +:+ ")");
    w_newline ].

(** [Ninju._generate(output, newline)]: the exception, if any, and the
    calls the writer received. *)
Definition _generate (n : Ninju) (newline : bool)
  : result unit * list wcall :=
  generate_loop (_seq n) newline header.

(** [Ninju.generate(newline)]. *)
Definition generate (n : Ninju) (newline : bool)
  : result unit * list wcall :=
  match _generate n newline with
  | (Ok tt, w) => (Ok tt, w ++ [w_close])
  | (Raise e, w) => (Raise e, w)
  end.

(** ** The methods of [Ninju] *)

(** The [executable_path] computed by [_NBuildRule.__init__] and
    [_NExecRule.__init__]: the result of [shutil.which], or the executable
    as given when it is not found (a [NinjuWarning] is issued then). *)
Definition resolve_executable (executable : string) : string :=
  match which host executable with
  | Some path => path
  | None => executable
  end.

(** [Ninju.var]. *)
Definition var (key value : string) : M string :=
  seq_append (_NVar key value 0);;
  mret ("${" +:+ key +:+ "}").

Definition pool_error : exn :=
  ConfigurationError "pool must be an integer greater than 1 or 'console'".

(** [Ninju._setup_pool]. *)
Definition _setup_pool (pool : pyval) : M (option string) :=
  match pool with
  | PNone => mret None
  | _ =>
    match is_int pool with
    | Some d =>
      if d <? 1 then raise pool_error
      else
        let pool_name := "pool_" +:+ format_int pool in
        pools ← gets _pools;
        match pools !! pool_name with
        | None =>
            seq_append (_NPool pool_name pool);;
            modify (fun n => set_pools (<[pool_name := true]> (_pools n)) n);;
            mret (Some pool_name)
        | Some _ => mret (Some pool_name)
        end
    | None =>
      if py_eq_str pool "console" then mret (Some "console")
      else raise pool_error
    end
  end.

(** [Ninju.cmd]. *)
Definition cmd (name executable : string)
    (args description depfile : option string) (generator : bool)
    (pool : pyval) (restat : bool)
    (rspfile rspfile_content deps : option string) : M unit :=
  pool_name ← _setup_pool pool;
  let v := mk_build_rule name executable args description depfile generator
             pool_name restat rspfile rspfile_content deps
             (resolve_executable executable) in
  seq_append (_NBuildRule v);;
  modify (fun n => set_cmds (<[name := v]> (_cmds n)) n).

(** [Ninju.exec_cmd]. *)
Definition exec_cmd (name executable : string)
    (args description rspfile rspfile_content : option string) : M unit :=
  let v := mk_exec_rule name executable args description rspfile
             rspfile_content (resolve_executable executable) in
  seq_append (_NExecRule v);;
  modify (fun n => set_exec_cmds (<[name := v]> (_exec_cmds n)) n).

(** The function [fn] returned by [_NBuildRule.build_fn]: the bound build
    command of rule [r]. *)
Definition build_fn (r : build_rule)
    (inputs outputs implicit order_only : pyval) (vars : variables)
    (implicit_outputs : pyval) : M pyval :=
  outs ← _normalize_outputs outputs "tmp";
  let b := mk_build_edge outs (br_name r) inputs
             (_Files [PStr (br_executable_path r); implicit])
             order_only vars implicit_outputs in
  seq_append (_NBuild b);;
  mret (_Files outs).

(** The function [fn] returned by [_NExecRule.exec_fn]: the bound exec
    command of rule [r]. *)
Definition exec_fn (r : exec_rule) (target inputs : pyval)
    (vars : variables) : M pyval :=
  if negb (_is_single_output target) then
    raise (ConfigurationError "exec_cmd can only have one target")
  else
    outs ← _normalize_outputs target "tmp";
    let b := mk_build_edge outs (er_name r) inputs PNone PNone vars PNone in
    seq_append (_NBuild b);;
    mret (_Files [target]).

(** [_Files.__getattr__(name)], for a [_Files] whose [files] are [p], and
    the call of the function it returns.  Python consults [__getattr__]
    only for a name it does not find on the object: see [_Files_call]. *)
Definition _Files_getattr (p : list pyval) (name : string)
    (outputs implicit order_only : pyval) (vars : variables)
    (implicit_outputs : pyval) : M pyval :=
  cmds ← gets _cmds;
  match cmds !! name with
  | Some r =>
      build_fn r (PList p) outputs implicit order_only vars implicit_outputs
  | None => raise AttributeError
  end.

(** [_Target.__getattr__(name)], for a [_Target] whose [target] is [t],
    and the call of the function it returns.  Python consults
    [__getattr__] only for a name it does not find on the object: see
    [_Target_call]. *)
Definition _Target_getattr (t : pyval) (name : string) (inputs : pyval)
    (vars : variables) : M pyval :=
  cmds ← gets _exec_cmds;
  match cmds !! name with
  | Some r => exec_fn r t inputs vars
  | None => raise AttributeError
  end.

(** Names with two leading and two trailing underscores. *)
Fixpoint ends_with_underscores (s : string) : bool :=
  match s with
  | EmptyString => false
  | String a EmptyString => false
  | String a (String b EmptyString) =>
      Ascii.eqb a "_"%char && Ascii.eqb b "_"%char
  | String _ s' => ends_with_underscores s'
  end.

Definition is_dunder (s : string) : bool :=
  String.prefix "__" s && ends_with_underscores s.

(** The names that attribute lookup finds on a [_Files] without
    [__getattr__]: the two attributes [__init__] sets, the methods of the
    class body, and what every instance has. *)
Definition _Files_attribute (name : string) : bool :=
  existsb (String.eqb name)
    ["_n"; "files"; "__init__"; "__getattr__"; "__repr__"; "__str__";
     "__bytes__"; "__format__"; "__iter__"; "__next__"]
  || (is_dunder name && object_attr host name).

(** The same for a [_Target]. *)
Definition _Target_attribute (name : string) : bool :=
  existsb (String.eqb name)
    ["_n"; "target"; "__init__"; "__getattr__"; "phony"; "__repr__";
     "__str__"; "__bytes__"; "__format__"]
  || (is_dunder name && object_attr host name).

(** [f.name(outputs=..., implicit=..., order_only=..., variables=...,
    implicit_outputs=...)] for a [_Files] [f] whose [files] are [p], the
    five arguments given by keyword.  A name found on the object never
    reaches [__getattr__]: what is found is not callable ([files], [_n],
    [__dict__], ...) or is a method that has none of these keywords, and
    the call raises [TypeError]. *)
Definition _Files_call (p : list pyval) (name : string)
    (outputs implicit order_only : pyval) (vars : variables)
    (implicit_outputs : pyval) : M pyval :=
  if _Files_attribute name then raise TypeError
  else _Files_getattr p name outputs implicit order_only vars
                      implicit_outputs.

(** [n.target(t).name(inputs=..., variables=...)], the two arguments
    given by keyword.  A name found on the object never reaches
    [__getattr__]: what is found is not callable ([target], [_n], ...) or
    is a method without a [variables] keyword ([phony] among them), and
    the call raises [TypeError]. *)
Definition _Target_call (t : pyval) (name : string) (inputs : pyval)
    (vars : variables) : M pyval :=
  if _Target_attribute name then raise TypeError
  else _Target_getattr t name inputs vars.

(** [_Target.phony]. *)
Definition phony (target inputs : pyval) : M unit :=
  seq_append (_NPhony target (_Files [inputs])).

(** [Ninju.default]. *)
Definition default (targets : list pyval) : M unit :=
  seq_append (_NDefault (_Files targets)).

(** [Ninju.files], [Ninju.target], [Ninju.root], [Ninju.builddir]. *)
Definition files (args : list pyval) : pyval := _Files args.
Definition target (t : pyval) : pyval := _Target t.
Definition root (args : list string) : pyval :=
  _Files [PStr (os_path_join "${root}" args)].
Definition builddir (args : list string) : pyval :=
  _Files [PStr (os_path_join "${builddir}" args)].

(** [Ninju.dir]: the path [p] that the returned [dirfn] closes over. *)
Definition dir (args : list string) (v : option string) : M string :=
  let p := match args with
           | [] => "${root}"
           | _ => os_path_join "${root}" args
           end in
  match v with
  | Some key => if String.eqb key "" then mret p else var key p
  | None => mret p
  end.

Definition dirfn (p : string) (args : list string) : pyval :=
  _Files [PStr (os_path_join p args)].

(** [Ninju.__init__]. *)
Definition blank (build_file build_dir : string) : Ninju :=
  mk_Ninju build_file build_dir (caller_file host) (caller_dir host)
           [] 0 ∅ ∅ ∅.

Definition bootstrap (no_cwd_check : bool) : M unit :=
  n ← gets id;
  if negb no_cwd_check && negb (String.eqb (_root_dir n) (getcwd host))
  then raise (SystemExit 1)
  else
    var "ninja_required_version" NINJA_REQUIRED_VERSION;;
    var "root" ".";;
    var "builddir" (os_path_join "${root}" [_build_dir n]);;
    cmd "configure" (_file n) None (Some "Regenerate ninja build file")
        None true PNone false None None None;;
    _Files_call [] "configure" (root [_build_file n])
      (PList [PStr (NINJU_MODULE_PATH host);
              PStr (NINJA_SYNTAX_MODULE_PATH host)])
      PNone None PNone;;
    mret tt.

Definition Ninju__init__ (build_file build_dir : string)
    (no_cwd_check : bool) : result unit * Ninju :=
  bootstrap no_cwd_check (blank build_file build_dir).

(** ** Configuration scripts: sequences of calls on one session

    [c_build p name ...] is [f.name(outputs=..., implicit=...,
    order_only=..., variables=..., implicit_outputs=...)] on a [_Files]
    [f] with tokens [p]; [c_exec t name inputs vars] is
    [n.target(t).name(inputs=..., variables=...)]; [c_phony t inputs] is
    [n.target(t).phony(inputs)]; the other calls are the methods of the
    session of the same name. *)

Inductive call : Type :=
  | c_var (key value : string)
  | c_cmd (name executable : string)
          (args description depfile : option string) (generator : bool)
          (pool : pyval) (restat : bool)
          (rspfile rspfile_content deps : option string)
  | c_exec_cmd (name executable : string)
               (args description rspfile rspfile_content : option string)
  | c_build (p : list pyval) (name : string)
            (outputs implicit order_only : pyval) (vars : variables)
            (implicit_outputs : pyval)
  | c_exec (t : pyval) (name : string) (inputs : pyval) (vars : variables)
  | c_phony (t inputs : pyval)
  | c_default (targets : list pyval)
  | c_dir (args : list string) (v : option string)
  | c_files (args : list pyval)
  | c_target (t : pyval)
  | c_root (args : list string)
  | c_builddir (args : list string).

(** What a call does to the session and what it returns. *)
Definition do_call (c : call) : M pyval :=
  match c with
  | c_var key value => s ← var key value; mret (PStr s)
  | c_cmd name executable args description depfile generator pool restat
          rspfile rspfile_content deps =>
      cmd name executable args description depfile generator pool restat
          rspfile rspfile_content deps;;
      mret PNone
  | c_exec_cmd name executable args description rspfile rspfile_content =>
      exec_cmd name executable args description rspfile rspfile_content;;
      mret PNone
  | c_build p name outputs implicit order_only vars implicit_outputs =>
      _Files_call p name outputs implicit order_only vars implicit_outputs
  | c_exec t name inputs vars => _Target_call t name inputs vars
  | c_phony t inputs => phony t inputs;; mret PNone
  | c_default targets => default targets;; mret PNone
  | c_dir args v => p ← dir args v; mret (PStr p)
  | c_files args => mret (files args)
  | c_target t => mret (target t)
  | c_root args => mret (root args)
  | c_builddir args => mret (builddir args)
  end.

(** A script runs its calls in order; an exception ends it. *)
Fixpoint run_calls (cs : list call) : M unit :=
  match cs with
  | [] => mret tt
  | c :: cs' => do_call c;; run_calls cs'
  end.

End WithHost.

(** ** Definitions used to state the properties *)

(** What one argument of [_Files(...)] contributes to the token list. *)
Definition splice (f : pyval) : list pyval :=
  match f with
  | PNone => []
  | PFiles fs => fs
  | PTarget t => [t]
  | PList l | PTuple l => l
  | _ => [f]
  end.

(** The name that carries counter value [counter]. *)
Definition generated_name (counter : Z) (ext : string) : string :=
  "${builddir}/.ninju_" +:+ pretty counter +:+ "." +:+ ext.

(** The names carrying the [k] counter values after [c], in order. *)
Definition generated_names (c : Z) (k : nat) (ext : string) : list pyval :=
  map (fun i => PStr (generated_name (c + Z.of_nat i) ext)) (seq 1 k).

(** [_gen_name] called once per element of [exts], in order. *)
Fixpoint issue (exts : list string) : M (list string) :=
  match exts with
  | [] => mret []
  | ext :: exts' =>
      name ← _gen_name ext; names ← issue exts'; mret (name :: names)
  end.

(** [_setup_pool(pool)] requested [k] times in a row. *)
Fixpoint request_pool (k : nat) (pool : pyval) : M (list (option string)) :=
  match k with
  | O => mret []
  | S k' =>
      r ← _setup_pool pool; rs ← request_pool k' pool; mret (r :: rs)
  end.

(** The tasks a call added to the log of session [n]. *)
Definition appended (host : Host) (c : call) (n : Ninju) : list task :=
  drop (length (_seq n)) (_seq (do_call host c n).2).

(** The tasks a script adds, call by call, in call order. *)
Fixpoint script_log (host : Host) (cs : list call) (n : Ninju) : list task :=
  match cs with
  | [] => []
  | c :: cs' =>
    match do_call host c n with
    | (Ok _, n') => appended host c n ++ script_log host cs' n'
    | (Raise _, _) => appended host c n
    end
  end.

(** The statements among the calls a writer received: everything but the
    header comment, the blank lines and the closing of the file. *)
Definition is_statement (c : wcall) : bool :=
  match c with
  | w_comment _ | w_newline | w_close => false
  | _ => true
  end.

Definition statements (w : list wcall) : list wcall :=
  List.filter is_statement w.

(** The variant of a statement. *)
Inductive kind : Type :=
  | VariableDef | PoolDef | BuildRuleDef | ExecRuleDef
  | BuildEdge | PhonyEdge | DefaultDecl.

Definition kind_of (t : task) : kind :=
  match t with
  | _NVar _ _ _ => VariableDef
  | _NPool _ _ => PoolDef
  | _NBuildRule _ => BuildRuleDef
  | _NExecRule _ => ExecRuleDef
  | _NBuild _ => BuildEdge
  | _NPhony _ _ => PhonyEdge
  | _NDefault _ => DefaultDecl
  end.

(** Is a pool request an integer depth that [_setup_pool] accepts, and
    under which name? *)
Definition pool_depth_name (pool : pyval) : option string :=
  match pool with
  | PNone => None
  | _ => match is_int pool with
         | Some d => if d <? 1 then None
                     else Some ("pool_" +:+ format_int pool)
         | None => None
         end
  end.

(** Does [_setup_pool] accept the request? *)
Definition pool_valid (pool : pyval) : bool :=
  match pool with
  | PNone => true
  | PStr s => String.eqb s "console"
  | PList _ | PTuple _ | PFiles _ | PTarget _ => false
  | _ => match is_int pool with
         | Some d => negb (d <? 1)
         | None => false
         end
  end.

(** The statements each kind of call is to append to the log of [n]. *)
Definition expected_kinds (host : Host) (c : call) (n : Ninju)
  : list kind :=
  match c with
  | c_var _ _ => [VariableDef]
  | c_cmd _ _ _ _ _ _ pool _ _ _ _ =>
      if pool_valid pool then
        match pool_depth_name pool with
        | Some name =>
            match _pools n !! name with
            | None => [PoolDef; BuildRuleDef]
            | Some _ => [BuildRuleDef]
            end
        | None => [BuildRuleDef]
        end
      else []
  | c_exec_cmd _ _ _ _ _ _ => [ExecRuleDef]
  | c_build _ name _ _ _ _ _ =>
      if _Files_attribute host name then []
      else match _cmds n !! name with Some _ => [BuildEdge] | None => [] end
  | c_exec t name _ _ =>
      if _Target_attribute host name then []
      else match _exec_cmds n !! name with
           | Some _ => if _is_single_output t then [BuildEdge] else []
           | None => []
           end
  | c_phony _ _ => [PhonyEdge]
  | c_default _ => [DefaultDecl]
  | c_dir _ v =>
      match v with
      | Some key => if String.eqb key "" then [] else [VariableDef]
      | None => []
      end
  | c_files _ | c_target _ | c_root _ | c_builddir _ => []
  end.

(** Values that [_Files.__init__] appends as one token, unchanged. *)
Definition plain (v : pyval) : Prop :=
  match v with
  | PBool _ | PInt _ | PStr _ => True
  | _ => False
  end.

(** A sized collection: what [_is_single_output] measures with [len]. *)
Definition collection (t : pyval) : option (list pyval) :=
  match t with
  | PFiles l | PList l | PTuple l => Some l
  | _ => None
  end.

(** A host and a session to evaluate the functions on: [cc] is found on
    the path, nothing else is; the session is the one [Ninju()] creates in
    [/proj/configure.py]; the attributes of every instance are those of
    CPython 3.12. *)
Definition host0 : Host :=
  mk_Host (fun e => if String.eqb e "cc" then Some "/usr/bin/cc" else None)
          (fun v => match v with PStr s => s | _ => "<object>" end)
          "/proj/configure.py" "/proj" "/proj"
          "/lib/ninju.py" "/lib/ninja_syntax.py"
          (fun name =>
             existsb (String.eqb name)
               ["__class__"; "__delattr__"; "__dict__"; "__dir__";
                "__doc__"; "__eq__"; "__format__"; "__ge__";
                "__getattribute__"; "__getstate__"; "__gt__"; "__hash__";
                "__init__"; "__init_subclass__"; "__le__"; "__lt__";
                "__module__"; "__ne__"; "__new__"; "__reduce__";
                "__reduce_ex__"; "__repr__"; "__setattr__"; "__sizeof__";
                "__str__"; "__subclasshook__"; "__weakref__"]).

Definition session0 : Ninju :=
  (Ninju__init__ host0 "build.ninja" ".builddir" false).2.

(** The rules of [cmd('compile', 'cc')] and [exec_cmd('run', 'sh')]. *)
Definition compile0 : build_rule :=
  mk_build_rule "compile" "cc" None None None false None false None None
                None "/usr/bin/cc".
Definition run0 : exec_rule :=
  mk_exec_rule "run" "sh" None None None None "sh".

(** Does a string contain a dot? *)
Fixpoint has_dot (s : string) : bool :=
  match s with
  | EmptyString => false
  | String c s' => Ascii.eqb c "."%char || has_dot s'
  end.

(** The names [issue] returns from a session whose counter is [c]. *)
Fixpoint issued (c : Z) (exts : list string) : list string :=
  match exts with
  | [] => []
  | ext :: exts' => generated_name (c + 1) ext :: issued (c + 1) exts'
  end.

(** The writer calls of the longest prefix of the log that can be
    written. *)
Fixpoint written (host : Host) (tasks : list task) : list wcall :=
  match tasks with
  | [] => []
  | t :: tasks' =>
    match write host t with
    | Ok c => c :: written host tasks'
    | Raise _ => []
    end
  end.

(** Can a task be written? *)
Definition writable (host : Host) (t : task) : bool :=
  match write host t with Ok _ => true | Raise _ => false end.

(** The session after [cmd('compile', 'cc')] and [exec_cmd('run', 'sh')]. *)
Definition session1 : Ninju :=
  (run_calls host0
     [c_cmd "compile" "cc" None None None false PNone false None None None;
      c_exec_cmd "run" "sh" None None None None] session0).2.

(** Is a task the declaration of the pool [name]? *)
Definition is_pool_def (name : string) (t : task) : bool :=
  match t with
  | _NPool name' _ => String.eqb name' name
  | _ => false
  end.

(** The number of declarations of the pool [name] in a log. *)
Definition pool_defs (name : string) (l : list task) : nat :=
  length (List.filter (is_pool_def name) l).

(** The pool registry and the log agree: a pool is declared once in the
    log when its name is in [_pools], and not at all otherwise. *)
Definition pool_inv (n : Ninju) : Prop :=
  ∀ name, pool_defs name (_seq n)
          = match _pools n !! name with Some _ => 1%nat | None => 0%nat end.

(** How a call changes the pool registry, given the tasks [l] it appends:
    not at all, and then it declares no pool; or it registers one new name
    and declares that pool, once. *)
Definition pools_step (n n' : Ninju) (l : list task) : Prop :=
  (_pools n' = _pools n ∧ ∀ name, pool_defs name l = 0%nat)
  ∨ (∃ pname, _pools n !! pname = None
       ∧ _pools n' = <[pname := true]> (_pools n)
       ∧ ∀ name, pool_defs name l = if String.eqb pname name then 1%nat
                                    else 0%nat).

(** ** The effect of a call, case by case *)

(** The path a [dir(...)] call closes over when it is given no variable. *)
Definition dir_path (args : list string) : string :=
  match args with
  | [] => "${root}"
  | _ => os_path_join "${root}" args
  end.

(** The calls that build a reference and leave the session alone. *)
Definition pure_call (c : call) : option pyval :=
  match c with
  | c_files args => Some (_Files args)
  | c_target t => Some (_Target t)
  | c_root args => Some (_Files [PStr (os_path_join "${root}" args)])
  | c_builddir args => Some (_Files [PStr (os_path_join "${builddir}" args)])
  | _ => None
  end.

(** What an accepted pool request returns and does to the session [n]:
    nothing for [None], ['console'] and a name that is registered; a new
    name is registered and its pool declared. *)
Definition pool_outcome (n : Ninju) (pool : pyval) (r : option string)
    (n1 : Ninju) : Prop :=
  (n1 = n ∧ (r = None ∨ r = Some "console"
             ∨ ∃ name, r = Some name ∧ is_Some (_pools n !! name)))
  ∨ (∃ name, r = Some name ∧ _pools n !! name = None
       ∧ n1 = set_pools (<[name := true]> (_pools n))
                (set_seq (fun s => s ++ [_NPool name pool]) n)).

(** [call_effect host n c res n']: the call [c] on the session [n] gives
    [res] and leaves the session [n']. *)
Inductive call_effect (host : Host) (n : Ninju)
  : call → result pyval → Ninju → Prop :=
  | eff_var key value :
      call_effect host n (c_var key value)
        (Ok (PStr ("${" +:+ key +:+ "}")))
        (set_seq (fun s => s ++ [_NVar key value 0]) n)
  | eff_cmd name executable args description depfile generator pool restat
            rspfile rspfile_content deps r n1 :
      _setup_pool pool n = (Ok r, n1) → pool_outcome n pool r n1 →
      call_effect host n
        (c_cmd name executable args description depfile generator pool
               restat rspfile rspfile_content deps)
        (Ok PNone)
        (set_cmds
           (<[name := mk_build_rule name executable args description depfile
                        generator r restat rspfile rspfile_content deps
                        (resolve_executable host executable)]> (_cmds n1))
           (set_seq (fun s => s ++
              [_NBuildRule
                 (mk_build_rule name executable args description depfile
                    generator r restat rspfile rspfile_content deps
                    (resolve_executable host executable))]) n1))
  | eff_cmd_invalid name executable args description depfile generator pool
                    restat rspfile rspfile_content deps :
      pool_valid pool = false →
      call_effect host n
        (c_cmd name executable args description depfile generator pool
               restat rspfile rspfile_content deps)
        (Raise pool_error) n
  | eff_exec_cmd name executable args description rspfile rspfile_content :
      call_effect host n
        (c_exec_cmd name executable args description rspfile
                    rspfile_content)
        (Ok PNone)
        (set_exec_cmds
           (<[name := mk_exec_rule name executable args description rspfile
                        rspfile_content
                        (resolve_executable host executable)]>
              (_exec_cmds n))
           (set_seq (fun s => s ++
              [_NExecRule
                 (mk_exec_rule name executable args description rspfile
                    rspfile_content
                    (resolve_executable host executable))]) n))
  | eff_build p name outputs implicit order_only vars io r outs k :
      _Files_attribute host name = false →
      _cmds n !! name = Some r →
      _normalize_outputs outputs "tmp" n
      = (Ok outs, set_name_count (_name_count n + Z.of_nat k) n) →
      call_effect host n
        (c_build p name outputs implicit order_only vars io)
        (Ok (PFiles (flat_map splice outs)))
        (set_seq (fun s => s ++
           [_NBuild (mk_build_edge outs (br_name r) (PList p)
              (PFiles (PStr (br_executable_path r) :: splice implicit))
              order_only vars io)])
           (set_name_count (_name_count n + Z.of_nat k) n))
  | eff_build_missing p name outputs implicit order_only vars io :
      _Files_attribute host name = false →
      _cmds n !! name = None →
      call_effect host n
        (c_build p name outputs implicit order_only vars io)
        (Raise AttributeError) n
  | eff_build_attribute p name outputs implicit order_only vars io :
      _Files_attribute host name = true →
      call_effect host n
        (c_build p name outputs implicit order_only vars io)
        (Raise TypeError) n
  | eff_exec t name inputs vars r outs k :
      _Target_attribute host name = false →
      _exec_cmds n !! name = Some r → _is_single_output t = true →
      _normalize_outputs t "tmp" n
      = (Ok outs, set_name_count (_name_count n + Z.of_nat k) n) →
      call_effect host n (c_exec t name inputs vars)
        (Ok (PFiles (splice t)))
        (set_seq (fun s => s ++
           [_NBuild (mk_build_edge outs (er_name r) inputs PNone PNone vars
                       PNone)])
           (set_name_count (_name_count n + Z.of_nat k) n))
  | eff_exec_not_single t name inputs vars r :
      _Target_attribute host name = false →
      _exec_cmds n !! name = Some r → _is_single_output t = false →
      call_effect host n (c_exec t name inputs vars)
        (Raise (ConfigurationError "exec_cmd can only have one target")) n
  | eff_exec_missing t name inputs vars :
      _Target_attribute host name = false →
      _exec_cmds n !! name = None →
      call_effect host n (c_exec t name inputs vars)
        (Raise AttributeError) n
  | eff_exec_attribute t name inputs vars :
      _Target_attribute host name = true →
      call_effect host n (c_exec t name inputs vars)
        (Raise TypeError) n
  | eff_phony t inputs :
      call_effect host n (c_phony t inputs) (Ok PNone)
        (set_seq (fun s => s ++ [_NPhony t (PFiles (splice inputs))]) n)
  | eff_default targets :
      call_effect host n (c_default targets) (Ok PNone)
        (set_seq (fun s => s ++
           [_NDefault (PFiles (flat_map splice targets))]) n)
  | eff_dir_var args key :
      key ≠ "" →
      call_effect host n (c_dir args (Some key))
        (Ok (PStr ("${" +:+ key +:+ "}")))
        (set_seq (fun s => s ++ [_NVar key (dir_path args) 0]) n)
  | eff_dir_plain args v :
      v = None ∨ v = Some "" →
      call_effect host n (c_dir args v) (Ok (PStr (dir_path args))) n
  | eff_pure c v :
      pure_call c = Some v → call_effect host n c (Ok v) n.

(** The calls [Ninju.__init__] makes once the directory guard has let it
    pass. *)
Definition bootstrap_script (host : Host) (build_file build_dir : string)
  : list call :=
  [c_var "ninja_required_version" NINJA_REQUIRED_VERSION;
   c_var "root" ".";
   c_var "builddir" (os_path_join "${root}" [build_dir]);
   c_cmd "configure" (caller_file host) None
         (Some "Regenerate ninja build file") None true PNone false
         None None None;
   c_build [] "configure" (root [build_file])
           (PList [PStr (NINJU_MODULE_PATH host);
                   PStr (NINJA_SYNTAX_MODULE_PATH host)])
           PNone None PNone].

(** Does the task declare the rule [name]? *)
Definition declares_rule (name : string) (t : task) : Prop :=
  match t with
  | _NBuildRule r => br_name r = name
  | _NExecRule r => er_name r = name
  | _ => False
  end.

(** Every edge of the log comes after the declaration of its rule. *)
Definition rules_before_edges (l : list task) : Prop :=
  ∀ i b, l !! i = Some (_NBuild b) →
    ∃ j t, (j < i)%nat ∧ l !! j = Some t ∧ declares_rule (b_rule b) t.

(** Every rule of the log that names a pool other than [console] comes
    after the declaration of that pool. *)
Definition pools_before_rules (l : list task) : Prop :=
  ∀ i r p, l !! i = Some (_NBuildRule r) → br_pool r = Some p →
    p = "console"
    ∨ ∃ j depth, (j < i)%nat ∧ l !! j = Some (_NPool p depth).

(** The registries agree with the log: a command registered under a name
    belongs to a rule of that name that the log declares, and a registered
    pool is declared in the log. *)
Definition registry_inv (n : Ninju) : Prop :=
  (∀ name r, _cmds n !! name = Some r →
     br_name r = name ∧ _NBuildRule r ∈ _seq n)
  ∧ (∀ name r, _exec_cmds n !! name = Some r →
       er_name r = name ∧ _NExecRule r ∈ _seq n)
  ∧ (∀ name, is_Some (_pools n !! name) →
       ∃ depth, _NPool name depth ∈ _seq n).

Definition session_inv (n : Ninju) : Prop :=
  registry_inv n ∧ rules_before_edges (_seq n)
  ∧ pools_before_rules (_seq n).

(** Outputs for which [_normalize_outputs] generates every name it
    returns: an integer, or a falsy value. *)
Definition generates (v : pyval) : bool :=
  match is_int v with
  | Some _ => true
  | None => negb (py_truth v)
  end.

(** Values [_as_string_list] accepts: [None] and what can be iterated. *)
Definition listable (v : pyval) : bool :=
  match v with
  | PNone | PList _ | PTuple _ | PFiles _ | PStr _ => true
  | _ => false
  end.



(** The outputs of an edge of the log. *)
Definition edge_outputs (t : task) : list pyval :=
  match t with
  | _NBuild b => b_outputs b
  | _ => []
  end.

(** The names [_gen_name] returned during a call.  [_gen_name] is called
    by [_normalize_outputs] only, which [build_fn] and [exec_fn] call
    once, and which returns either the names it had generated (for an
    integer or a falsy value) or values it was given; what it returns
    becomes the outputs of the edge the command appends. *)
Definition names_issued (host : Host) (c : call) (n : Ninju) : list pyval :=
  match c with
  | c_build _ _ outputs _ _ _ _ =>
      if generates outputs
      then flat_map edge_outputs (appended host c n) else []
  | c_exec t _ _ _ =>
      if generates t
      then flat_map edge_outputs (appended host c n) else []
  | _ => []
  end.

(** The names issued during a script, call by call, in call order. *)
Fixpoint script_issued (host : Host) (cs : list call) (n : Ninju)
  : list pyval :=
  match cs with
  | [] => []
  | c :: cs' =>
    match do_call host c n with
    | (Ok _, n') => names_issued host c n ++ script_issued host cs' n'
    | (Raise _, _) => names_issued host c n
    end
  end.

(** * Properties *)

(** ** Basic facts about the monad and the session *)

Lemma bind_Ok {A B} (m : M A) (k : A → M B) n a n' :
  m n = (Ok a, n') → (m ≫= k) n = k a n'.
Proof. intros H. unfold mbind, M_bind, bind. by rewrite H. Qed.

Lemma bind_Raise {A B} (m : M A) (k : A → M B) n e n' :
  m n = (Raise e, n') → (m ≫= k) n = (Raise e, n').
Proof. intros H. unfold mbind, M_bind, bind. by rewrite H. Qed.

Lemma set_name_count_id n : set_name_count (_name_count n) n = n.
Proof. by destruct n. Qed.

Lemma _gen_name_eq ext n :
  _gen_name ext n
  = (Ok (generated_name (_name_count n + 1) ext),
     set_name_count (_name_count n + 1) n).
Proof. reflexivity. Qed.

(** ** Flattening *)

Lemma _Files_step_splice acc f : _Files_step acc f = acc ++ splice f.
Proof. destruct f; simpl; by rewrite ?app_nil_r. Qed.

Lemma fold_Files_step args acc :
  fold_left _Files_step args acc = acc ++ flat_map splice args.
Proof.
  revert acc. induction args as [|f args IH]; intros acc; simpl.
  - by rewrite app_nil_r.
  - by rewrite IH, _Files_step_splice, <-app_assoc.
Qed.

Lemma _Files_flat_map args : _Files args = PFiles (flat_map splice args).
Proof. unfold _Files. by rewrite fold_Files_step. Qed.

Lemma flat_map_splice_plain l : Forall plain l → flat_map splice l = l.
Proof.
  induction 1 as [|x l Hx _ IH]; [done|]. simpl. rewrite IH.
  by destruct x.
Qed.

(** C9. [_Files] flattens its arguments one level, from left to right:
    [None] is dropped, the tokens of a [_Files] and the elements of a list
    or tuple are spliced in in their order, the name of a [_Target] and any
    other value contribute one token; the token list is the concatenation
    of these contributions, so nothing is deduplicated, and
    [[None, ["a","b"], FileRef(["c"]), TargetRef("d")]] gives
    [["a","b","c","d"]]. *)
Theorem C9_files_flatten :
  (∀ args : list pyval, _Files args = PFiles (flat_map splice args))
  ∧ (∀ args : list pyval,
       length (flat_map splice args)
       = sum_list (map (fun f => length (splice f)) args))
  ∧ splice PNone = []
  ∧ (∀ fs, splice (PFiles fs) = fs)
  ∧ (∀ t, splice (PTarget t) = [t])
  ∧ (∀ l, splice (PList l) = l ∧ splice (PTuple l) = l)
  ∧ _Files [PNone; PList [PStr "a"; PStr "b"]; PFiles [PStr "c"];
            PTarget (PStr "d")]
    = PFiles [PStr "a"; PStr "b"; PStr "c"; PStr "d"].
Proof.
  split; [exact _Files_flat_map|].
  split.
  { induction args as [|f args IH]; [done|].
    simpl. by rewrite length_app, IH. }
  repeat split.
Qed.

(** ** Generated names *)

Lemma has_dot_app s1 s2 : has_dot (s1 +:+ s2) = has_dot s1 || has_dot s2.
Proof.
  induction s1 as [|c s1 IH]; [done|]. simpl. rewrite IH.
  by rewrite orb_assoc.
Qed.

Lemma pretty_N_char_no_dot x : Ascii.eqb (pretty_N_char x) "."%char = false.
Proof. unfold pretty_N_char. by repeat case_match. Qed.

Lemma pretty_N_go_no_dot x s :
  has_dot s = false → has_dot (pretty_N_go x s) = false.
Proof.
  revert s. induction (N.lt_wf_0 x) as [x _ IH]; intros s Hs.
  destruct (decide (x = 0)%N) as [->|Hx].
  - by rewrite pretty_N_go_0.
  - rewrite pretty_N_go_step by lia. apply IH.
    + apply N.div_lt; lia.
    + simpl. by rewrite pretty_N_char_no_dot, Hs.
Qed.

Lemma pretty_N_no_dot (x : N) : has_dot (pretty x) = false.
Proof.
  unfold pretty, pretty_N. case_decide; [done|].
  by apply pretty_N_go_no_dot.
Qed.

Lemma pretty_Z_no_dot (z : Z) : has_dot (pretty z) = false.
Proof.
  destruct z as [|p|p]; unfold pretty, pretty_Z; [done|..].
  - apply pretty_N_no_dot.
  - rewrite has_dot_app. simpl. apply pretty_N_no_dot.
Qed.

(** Two strings without a dot that are followed by a dot are equal when
    the whole strings are. *)
Lemma first_dot_inj a b r r' :
  has_dot a = false → has_dot b = false →
  a +:+ String "."%char r = b +:+ String "."%char r' → a = b.
Proof.
  revert b. induction a as [|c a IH]; intros [|d b] Ha Hb Heq;
    simpl in *; try done.
  - injection Heq as <- _. by rewrite Ascii.eqb_refl in Hb.
  - injection Heq as -> _. by rewrite Ascii.eqb_refl in Ha.
  - injection Heq as -> Heq. apply orb_false_elim in Ha as [_ Ha].
    apply orb_false_elim in Hb as [_ Hb]. f_equal. by apply IH.
Qed.

(** Names that carry different counter values differ, whatever their
    extensions. *)
Lemma generated_name_inj c c' ext ext' :
  generated_name c ext = generated_name c' ext' → c = c'.
Proof.
  unfold generated_name. intros H.
  apply (inj (String.app "${builddir}/.ninju_")) in H.
  apply first_dot_inj in H; [|apply pretty_Z_no_dot..].
  by apply (inj pretty) in H.
Qed.

Lemma issue_eq exts n :
  issue exts n
  = (Ok (issued (_name_count n) exts),
     set_name_count (_name_count n + Z.of_nat (length exts)) n).
Proof.
  revert n. induction exts as [|ext exts IH]; intros n; simpl.
  - by rewrite Z.add_0_r, set_name_count_id.
  - erewrite bind_Ok by apply _gen_name_eq.
    erewrite bind_Ok by apply IH. simpl.
    replace (_name_count n + Z.of_nat (S (length exts)))
      with (_name_count n + 1 + Z.of_nat (length exts)) by lia.
    reflexivity.
Qed.

Lemma issued_lookup exts : ∀ c k ext,
  exts !! k = Some ext →
  issued c exts !! k = Some (generated_name (c + Z.of_nat (S k)) ext).
Proof.
  induction exts as [|e exts IH]; intros c k ext Hk; [done|].
  destruct k as [|k]; simpl in *.
  - by injection Hk as ->.
  - rewrite (IH (c + 1) k ext Hk).
    replace (c + 1 + Z.of_nat (S k)) with (c + Z.of_nat (S (S k))) by lia.
    reflexivity.
Qed.

Lemma issued_length c exts : length (issued c exts) = length exts.
Proof. revert c. induction exts; intros; simpl; auto. Qed.

Lemma issued_counter_gt exts : ∀ c name,
  name ∈ issued c exts → ∃ k ext, c < k ∧ name = generated_name k ext.
Proof.
  induction exts as [|e exts IH]; intros c name Hin; simpl in *.
  - by apply elem_of_nil in Hin.
  - apply elem_of_cons in Hin as [->|Hin].
    + exists (c + 1), e. split; [lia|done].
    + destruct (IH _ _ Hin) as (k & ext & Hk & ->).
      exists k, ext. split; [lia|done].
Qed.

Lemma issued_NoDup exts : ∀ c, NoDup (issued c exts).
Proof.
  induction exts as [|e exts IH]; intros c; simpl; constructor; [|done].
  intros Hin. apply issued_counter_gt in Hin as (k & ext & Hk & Heq).
  apply generated_name_inj in Heq. lia.
Qed.

Lemma Ninju__init__name_count host bf bd chk :
  _name_count (Ninju__init__ host bf bd chk).2 = 0.
Proof.
  unfold Ninju__init__, bootstrap.
  unfold mbind, M_bind, bind, gets; simpl.
  destruct (negb chk && _); reflexivity.
Qed.

(** ** Output normalization *)

Lemma generated_names_S c k ext :
  generated_names c (S k) ext
  = PStr (generated_name (c + 1) ext) :: generated_names (c + 1) k ext.
Proof.
  unfold generated_names. simpl. f_equal.
  rewrite <-seq_shift, map_map. apply map_ext. intros i.
  do 2 f_equal. lia.
Qed.

Lemma generated_names_length c k ext :
  length (generated_names c k ext) = k.
Proof. unfold generated_names. by rewrite length_map, length_seq. Qed.

Lemma PStr_inj s s' : PStr s = PStr s' → s = s'.
Proof. congruence. Qed.

Lemma generated_names_NoDup c k ext : NoDup (generated_names c k ext).
Proof.
  unfold generated_names. apply (NoDup_fmap_2_strong _ (seq 1 k)).
  - intros i j _ _ H. apply PStr_inj, generated_name_inj in H. lia.
  - apply NoDup_seq.
Qed.

Lemma gen_names_eq k ext : ∀ outs n,
  gen_names k ext outs n
  = (Ok (outs ++ generated_names (_name_count n) k ext),
     set_name_count (_name_count n + Z.of_nat k) n).
Proof.
  induction k as [|k IH]; intros outs n.
  - simpl. unfold mret, M_ret, ret.
    by rewrite app_nil_r, Z.add_0_r, set_name_count_id.
  - cbn [gen_names]. erewrite bind_Ok by apply _gen_name_eq.
    rewrite IH, generated_names_S, <-app_assoc. simpl.
    replace (_name_count n + Z.of_nat (S k))
      with (_name_count n + 1 + Z.of_nat k) by lia.
    reflexivity.
Qed.

(** Normalization never raises and touches nothing but the counter. *)
Lemma _normalize_outputs_total outputs ext n :
  ∃ outs c, _normalize_outputs outputs ext n = (Ok outs, set_name_count c n).
Proof.
  unfold _normalize_outputs.
  destruct (negb (py_truth outputs)).
  { eexists _, _. by erewrite bind_Ok by apply _gen_name_eq. }
  destruct (is_int outputs) as [k|].
  { eexists _, _. apply gen_names_eq. }
  exists (match outputs with
          | PFiles fs => fs | PList l => l | _ => as_list outputs end),
         (_name_count n).
  rewrite set_name_count_id. by destruct outputs.
Qed.

(** What a falsy value normalizes to. *)
Lemma _normalize_outputs_falsy outputs ext n :
  py_truth outputs = false →
  _normalize_outputs outputs ext n
  = (Ok [PStr (generated_name (_name_count n + 1) ext)],
     set_name_count (_name_count n + 1) n).
Proof. intros H. unfold _normalize_outputs. by rewrite H. Qed.

(** C6 (as amended).  [_normalize_outputs] resolves by case in this order:
    a falsy value ([None], the integer 0, [False], the empty string, an
    empty list or tuple) gives one generated name; a non-zero integer [N]
    gives [N] distinct generated names when [N > 0] (one for [True]) and
    none when [N < 0]; a [_Files] gives its token list as it is; a
    non-empty list is used as it is; any other value (a non-empty string,
    a non-empty tuple, a [_Target]) is wrapped as a one-element list.
    The generated names carry the counter values that follow the
    session's. *)
Theorem C6_normalize_outputs_cases (ext : string) (n : Ninju) :
  let c := _name_count n in
  let one := (Ok [PStr (generated_name (c + 1) ext)],
              set_name_count (c + 1) n) in
  (_normalize_outputs PNone ext n = one
   ∧ _normalize_outputs (PInt 0) ext n = one
   ∧ _normalize_outputs (PBool false) ext n = one
   ∧ _normalize_outputs (PStr "") ext n = one
   ∧ _normalize_outputs (PList []) ext n = one
   ∧ _normalize_outputs (PTuple []) ext n = one)
  ∧ (∀ N : positive,
       _normalize_outputs (PInt (Z.pos N)) ext n
       = (Ok (generated_names c (Pos.to_nat N) ext),
          set_name_count (c + Z.pos N) n)
       ∧ length (generated_names c (Pos.to_nat N) ext) = Pos.to_nat N
       ∧ NoDup (generated_names c (Pos.to_nat N) ext))
  ∧ _normalize_outputs (PBool true) ext n = one
  ∧ (∀ N : positive, _normalize_outputs (PInt (Z.neg N)) ext n = (Ok [], n))
  ∧ (∀ fs, _normalize_outputs (PFiles fs) ext n = (Ok fs, n))
  ∧ (∀ x l, _normalize_outputs (PList (x :: l)) ext n = (Ok (x :: l), n))
  ∧ (∀ x l, _normalize_outputs (PTuple (x :: l)) ext n
            = (Ok [PTuple (x :: l)], n))
  ∧ (∀ a s, _normalize_outputs (PStr (String a s)) ext n
            = (Ok [PStr (String a s)], n))
  ∧ (∀ t, _normalize_outputs (PTarget t) ext n = (Ok [PTarget t], n)).
Proof.
  intros c one.
  split; [by repeat split|].
  split.
  { intros N. split; [|split].
    - unfold _normalize_outputs; simpl. rewrite gen_names_eq. simpl.
      do 2 f_equal. fold c. lia.
    - apply generated_names_length.
    - apply generated_names_NoDup. }
  split.
  { reflexivity. }
  split.
  { intros N. reflexivity. }
  by repeat split.
Qed.

(** C6 as stated fails: the integer 0 does not give zero generated names
    but one, and the empty list is not used as it is but replaced by one
    generated name, since both are falsy and the first case of the code
    is [if not outputs]. *)
Lemma C6_counterexample :
  (∃ outs, (_normalize_outputs (PInt 0) "tmp" session0).1 = Ok outs
           ∧ length outs ≠ Z.to_nat 0)
  ∧ (_normalize_outputs (PList []) "tmp" session0).1
    = Ok [PStr "${builddir}/.ninju_1.tmp"]
  ∧ (_normalize_outputs (PList []) "tmp" session0).1 ≠ Ok [].
Proof.
  split; [|split].
  - exists [PStr "${builddir}/.ninju_1.tmp"]. split; [by vm_compute|].
    simpl. lia.
  - by vm_compute.
  - by vm_compute.
Qed.

(** ** The methods, one by one *)

Lemma var_eq key value n :
  var key value n
  = (Ok ("${" +:+ key +:+ "}"), set_seq (fun s => s ++ [_NVar key value 0]) n).
Proof. reflexivity. Qed.

(** A request for an integer depth that is not registered yet. *)
Lemma _setup_pool_new pool name n :
  pool_depth_name pool = Some name → _pools n !! name = None →
  _setup_pool pool n
  = (Ok (Some name),
     set_pools (<[name := true]> (_pools n))
               (set_seq (fun s => s ++ [_NPool name pool]) n)).
Proof.
  unfold pool_depth_name, _setup_pool. intros Hname Hnew.
  destruct pool; try done; simpl in *;
    (destruct (_ <? 1); [done|]); injection Hname as <-;
    unfold mbind, M_bind, bind, gets; simpl; by rewrite Hnew.
Qed.

(** A request for an integer depth that is registered already. *)
Lemma _setup_pool_again pool name n :
  pool_depth_name pool = Some name → is_Some (_pools n !! name) →
  _setup_pool pool n = (Ok (Some name), n).
Proof.
  unfold pool_depth_name, _setup_pool. intros Hname [b Hb].
  destruct pool; try done; simpl in *;
    (destruct (_ <? 1); [done|]); injection Hname as <-;
    unfold mbind, M_bind, bind, gets; simpl; by rewrite Hb.
Qed.

(** A request that is valid and needs no declaration: [None], ['console']. *)
Lemma _setup_pool_builtin pool n :
  pool_valid pool = true → pool_depth_name pool = None →
  ∃ r, _setup_pool pool n = (Ok r, n).
Proof.
  unfold pool_valid, pool_depth_name, _setup_pool. intros Hv Hd.
  destruct pool; simpl in *; try done.
  - by eexists.
  - by destruct (_ <? 1).
  - by destruct (_ <? 1).
  - rewrite Hv. by eexists.
Qed.

(** A request that is not valid. *)
Lemma _setup_pool_invalid pool n :
  pool_valid pool = false → _setup_pool pool n = (Raise pool_error, n).
Proof.
  unfold pool_valid, _setup_pool. intros Hv.
  destruct pool; simpl in *; try done.
  - by destruct (_ <? 1).
  - by destruct (_ <? 1).
  - by rewrite Hv.
Qed.

Lemma pool_depth_name_valid pool name :
  pool_depth_name pool = Some name → pool_valid pool = true.
Proof.
  unfold pool_depth_name, pool_valid.
  destruct pool; simpl; try done; by destruct (_ <? 1).
Qed.

Lemma pool_depth_name_int d :
  1 ≤ d → pool_depth_name (PInt d) = Some ("pool_" +:+ pretty d).
Proof.
  intros Hd. unfold pool_depth_name; simpl.
  destruct (d <? 1) eqn:E; [|done]. apply Z.ltb_lt in E. lia.
Qed.

Lemma request_pool_registered k pool name n :
  pool_depth_name pool = Some name → is_Some (_pools n !! name) →
  request_pool k pool n = (Ok (replicate k (Some name)), n).
Proof.
  intros Hname Hreg. induction k as [|k IH]; [done|].
  cbn [request_pool]. erewrite bind_Ok by by apply _setup_pool_again.
  by erewrite bind_Ok by apply IH.
Qed.

(** ** Bound build and exec commands *)

Lemma build_fn_eq r inputs outputs implicit order_only vars io n outs n1 :
  _normalize_outputs outputs "tmp" n = (Ok outs, n1) →
  build_fn r inputs outputs implicit order_only vars io n
  = (Ok (PFiles (flat_map splice outs)),
     set_seq (fun s => s ++ [_NBuild (mk_build_edge outs (br_name r) inputs
                (PFiles (PStr (br_executable_path r) :: splice implicit))
                order_only vars io)]) n1).
Proof.
  intros Hnorm. unfold build_fn. erewrite bind_Ok by exact Hnorm.
  rewrite !_Files_flat_map. simpl. by rewrite app_nil_r.
Qed.

Lemma exec_fn_single r target inputs vars n outs n1 :
  _is_single_output target = true →
  _normalize_outputs target "tmp" n = (Ok outs, n1) →
  exec_fn r target inputs vars n
  = (Ok (PFiles (splice target)),
     set_seq (fun s => s ++ [_NBuild (mk_build_edge outs (er_name r) inputs
                PNone PNone vars PNone)]) n1).
Proof.
  intros Hs Hnorm. unfold exec_fn. rewrite Hs. simpl.
  erewrite bind_Ok by exact Hnorm.
  rewrite _Files_flat_map. simpl. by rewrite app_nil_r.
Qed.

Lemma exec_fn_not_single r target inputs vars n :
  _is_single_output target = false →
  exec_fn r target inputs vars n
  = (Raise (ConfigurationError "exec_cmd can only have one target"), n).
Proof. intros Hs. unfold exec_fn. by rewrite Hs. Qed.

Lemma _is_single_output_false target :
  _is_single_output target = false
  ↔ ∃ l, collection target = Some l ∧ length l ≠ 1%nat.
Proof.
  unfold _is_single_output, collection. split.
  - destruct target; simpl; try done;
      intros H; eexists; (split; [done|]);
      intros Hlen; rewrite Hlen in H; done.
  - intros (l & Hc & Hlen).
    destruct target; simpl; try done; injection Hc as ->;
      apply Nat.eqb_neq in Hlen; by rewrite Hlen.
Qed.

Lemma _Files_getattr_eq p name r outputs implicit order_only vars io n :
  _cmds n !! name = Some r →
  _Files_getattr p name outputs implicit order_only vars io n
  = build_fn r (PList p) outputs implicit order_only vars io n.
Proof.
  intros H. unfold _Files_getattr, mbind, M_bind, bind, gets. by rewrite H.
Qed.

Lemma _Target_getattr_eq t name r inputs vars n :
  _exec_cmds n !! name = Some r →
  _Target_getattr t name inputs vars n = exec_fn r t inputs vars n.
Proof.
  intros H. unfold _Target_getattr, mbind, M_bind, bind, gets. by rewrite H.
Qed.

Lemma _Files_call_eq host p name r outputs implicit order_only vars io n :
  _Files_attribute host name = false → _cmds n !! name = Some r →
  _Files_call host p name outputs implicit order_only vars io n
  = build_fn r (PList p) outputs implicit order_only vars io n.
Proof.
  intros Ha Hr. unfold _Files_call. rewrite Ha. by apply _Files_getattr_eq.
Qed.

(** C3 (as amended).  The build command of the rule [r] registered under
    [name], called with any inputs, never raises; it appends exactly one
    [_NBuild] that references the rule, carries the inputs, and has as
    implicit inputs the rule's executable path followed by the caller's
    implicit inputs; it returns a [_Files] whose tokens are the normalized
    outputs flattened one level, which are the normalized outputs
    themselves when these are plain tokens; with outputs omitted and the
    counter at 0, the edge's single output is the first name of the name
    generator.  Calling [name] as a method of a [_Files] is calling this
    command with the tokens of the [_Files] as inputs, provided [name] is
    not one of the names a [_Files] has as attributes already. *)
Theorem C3_build_command (host : Host) (n : Ninju) (name : string)
    (r : build_rule) (inputs outputs implicit order_only : pyval)
    (vars : variables) (implicit_outputs : pyval) :
  _cmds n !! name = Some r →
  ∃ outs n1,
    _normalize_outputs outputs "tmp" n = (Ok outs, n1)
    ∧ build_fn r inputs outputs implicit order_only vars implicit_outputs n
      = (Ok (PFiles (flat_map splice outs)),
         set_seq (fun s => s ++
           [_NBuild (mk_build_edge outs (br_name r) inputs
              (PFiles (PStr (br_executable_path r) :: splice implicit))
              order_only vars implicit_outputs)]) n1)
    ∧ (_Files_attribute host name = false →
       ∀ p, _Files_call host p name outputs implicit order_only vars
                        implicit_outputs n
            = build_fn r (PList p) outputs implicit order_only vars
                       implicit_outputs n)
    ∧ (Forall plain outs → flat_map splice outs = outs)
    ∧ (outputs = PNone → _name_count n = 0 →
       outs = [PStr "${builddir}/.ninju_1.tmp"]).
Proof.
  intros Hreg.
  destruct (_normalize_outputs_total outputs "tmp" n) as (outs & c & Hnorm).
  exists outs, (set_name_count c n). split; [done|].
  split; [by apply build_fn_eq|].
  split; [intros Hattr p; by apply _Files_call_eq|].
  split; [apply flat_map_splice_plain|].
  intros -> Hc. rewrite _normalize_outputs_falsy in Hnorm by done.
  rewrite Hc in Hnorm. by injection Hnorm as <- _.
Qed.

Lemma C3_build_command_witness :
  ∃ outs n1,
    _normalize_outputs PNone "tmp" session1 = (Ok outs, n1)
    ∧ _Files_call host0 [PStr "a.c"] "compile" PNone PNone PNone None PNone
                  session1
      = (Ok (PFiles outs),
         set_seq (fun s => s ++
           [_NBuild (mk_build_edge outs "compile" (PList [PStr "a.c"])
              (PFiles [PStr "/usr/bin/cc"]) PNone None PNone)]) n1)
    ∧ outs = [PStr "${builddir}/.ninju_1.tmp"].
Proof.
  destruct (C3_build_command host0 session1 "compile" compile0
              (PList [PStr "a.c"]) PNone PNone PNone None PNone)
    as (outs & n1 & Hnorm & Hcall & Hget & Hplain & Hfirst);
    [by vm_compute|].
  exists outs, n1.
  assert (Houts : outs = [PStr "${builddir}/.ninju_1.tmp"]).
  { apply Hfirst; [reflexivity | by vm_compute]. }
  split; [exact Hnorm|]. split; [|exact Houts].
  rewrite Hget by reflexivity. rewrite Hcall, Hplain; [reflexivity|].
  rewrite Houts. repeat constructor.
Defined.

(** C3 as stated fails: with the outputs
    [[n.builddir("a.o"), n.builddir("b.o")]], a list of two [_Files], the
    normalized outputs are that list, and the edge gets it, but the tokens
    of the returned [_Files] are the two path strings, because
    [ninju.files], applied to the outputs, flattens each of them. *)
Lemma C3_counterexample :
  let outputs := PList [builddir ["a.o"]; builddir ["b.o"]] in
  (_normalize_outputs outputs "tmp" session1).1
  = Ok [PFiles [PStr "${builddir}/a.o"]; PFiles [PStr "${builddir}/b.o"]]
  ∧ (_Files_getattr [PStr "a.c"] "compile" outputs PNone PNone None PNone
                    session1).1
    = Ok (PFiles [PStr "${builddir}/a.o"; PStr "${builddir}/b.o"])
  ∧ PFiles [PStr "${builddir}/a.o"; PStr "${builddir}/b.o"]
    ≠ PFiles [PFiles [PStr "${builddir}/a.o"];
              PFiles [PStr "${builddir}/b.o"]].
Proof. split; [by vm_compute|]. split; [by vm_compute|]. discriminate. Qed.

(** C4 (as amended).  The exec command of a rule raises
    [ConfigurationError] exactly when its target is a [_Files], a list or
    a tuple whose length is not 1, and then leaves the session as it was;
    in every other case it appends exactly one [_NBuild] for the rule,
    whose outputs are the normalized target and which has no implicit
    inputs or outputs, and returns a [_Files] (not a [_Target]) built from
    the target; for a non-empty string target the edge's single output
    and the single token of the returned [_Files] are that string. *)
Theorem C4_exec_command (r : exec_rule) (inputs : pyval) (vars : variables)
    (n : Ninju) :
  (∀ target,
     (exec_fn r target inputs vars n).1
       = Raise (ConfigurationError "exec_cmd can only have one target")
     ↔ ∃ l, collection target = Some l ∧ length l ≠ 1%nat)
  ∧ (∀ target l,
       collection target = Some l → length l ≠ 1%nat →
       exec_fn r target inputs vars n
       = (Raise (ConfigurationError "exec_cmd can only have one target"), n))
  ∧ (∀ target,
       _is_single_output target = true →
       ∃ outs n1,
         _normalize_outputs target "tmp" n = (Ok outs, n1)
         ∧ exec_fn r target inputs vars n
           = (Ok (PFiles (splice target)),
              set_seq (fun s => s ++
                [_NBuild (mk_build_edge outs (er_name r) inputs
                            PNone PNone vars PNone)]) n1))
  ∧ (∀ a s,
       exec_fn r (PStr (String a s)) inputs vars n
       = (Ok (PFiles [PStr (String a s)]),
          set_seq (fun q => q ++
            [_NBuild (mk_build_edge [PStr (String a s)] (er_name r) inputs
                        PNone PNone vars PNone)]) n)).
Proof.
  split; [|split; [|split]].
  - intros target. rewrite <-_is_single_output_false.
    destruct (_is_single_output target) eqn:Hs.
    + destruct (_normalize_outputs_total target "tmp" n) as (outs & c & Hn).
      rewrite (exec_fn_single _ _ _ _ _ _ _ Hs Hn). simpl. by split.
    + by rewrite exec_fn_not_single.
  - intros target l Hc Hlen. apply exec_fn_not_single.
    apply _is_single_output_false. eauto.
  - intros target Hs.
    destruct (_normalize_outputs_total target "tmp" n) as (outs & c & Hn).
    exists outs, (set_name_count c n). split; [done|].
    by apply exec_fn_single.
  - intros a s. by erewrite exec_fn_single.
Qed.

(** C4 as stated fails: the exec command called with the single target
    ["x"] returns a [_Files] over it, not a [_Target]. *)
Lemma C4_counterexample :
  (_Target_getattr (PStr "x") "run" PNone None session1).1
  = Ok (PFiles [PStr "x"])
  ∧ (_Target_getattr (PStr "x") "run" PNone None session1).1
    ≠ Ok (_Target (PStr "x")).
Proof. split; by vm_compute. Qed.

(** C10. Called with a falsy target that is not a [_Files], a list or a
    tuple ([None], the empty string, 0, [False]), the exec command does
    not raise: it appends one [_NBuild] whose single output is the next
    generated name, and moves the counter by one. *)
Theorem C10_exec_falsy_target (r : exec_rule) (target inputs : pyval)
    (vars : variables) (n : Ninju) :
  py_truth target = false → collection target = None →
  exec_fn r target inputs vars n
  = (Ok (_Files [target]),
     set_seq (fun s => s ++
       [_NBuild (mk_build_edge
          [PStr ("${builddir}/.ninju_" +:+ pretty (_name_count n + 1)
                 +:+ ".tmp")]
          (er_name r) inputs PNone PNone vars PNone)])
       (set_name_count (_name_count n + 1) n)).
Proof.
  intros Hf Hc.
  assert (Hs : _is_single_output target = true).
  { destruct (_is_single_output target) eqn:E; [done|].
    apply _is_single_output_false in E as (l & Hl & _). congruence. }
  rewrite (exec_fn_single _ _ _ _ _ _ _ Hs
             (_normalize_outputs_falsy target "tmp" n Hf)).
  by rewrite _Files_flat_map; simpl; rewrite app_nil_r.
Qed.

Lemma C10_exec_falsy_target_witness :
  exec_fn run0 PNone PNone None session1
  = (Ok (PFiles []),
     set_seq (fun s => s ++
       [_NBuild (mk_build_edge [PStr "${builddir}/.ninju_1.tmp"]
                   "run" PNone PNone PNone None PNone)])
       (set_name_count 1 session1))
  ∧ (exec_fn run0 (PStr "") PNone None session1).1 = Ok (PFiles [PStr ""]).
Proof.
  split.
  - apply (C10_exec_falsy_target run0 PNone PNone None session1);
      reflexivity.
  - by rewrite (C10_exec_falsy_target run0 (PStr "") PNone None session1).
Defined.

(** ** Generation *)

Lemma write_is_statement host t c :
  write host t = Ok c → is_statement c = true.
Proof.
  destruct t; simpl; try by intros [= <-].
  - unfold _NBuild_write. destruct (b_outputs b); [done|].
    repeat (destruct (_as_string_list _ _); [|done]). by intros [= <-].
  - destruct (str_each _ _); [|done].
    destruct (writer_accepts _); [|done]. by intros [= <-].
  - destruct (str_each _ _); [|done]. by intros [= <-].
Qed.

Lemma statements_app w1 w2 :
  statements (w1 ++ w2) = statements w1 ++ statements w2.
Proof. unfold statements. apply List.filter_app. Qed.

Lemma generate_loop_statements host newline tasks : ∀ w,
  statements (generate_loop host tasks newline w).2
  = statements w ++ written host tasks.
Proof.
  induction tasks as [|t tasks IH]; intros w; simpl.
  - by rewrite app_nil_r.
  - destruct (write host t) as [c|e] eqn:Hw; simpl.
    + rewrite IH. pose proof (write_is_statement _ _ _ Hw) as Hc.
      destruct newline; rewrite statements_app; unfold statements at 2;
        simpl; rewrite Hc; simpl; by rewrite <-app_assoc.
    + by rewrite app_nil_r.
Qed.

Lemma generate_loop_result host newline tasks : ∀ w,
  match (generate_loop host tasks newline w).1 with
  | Ok _ => length (written host tasks) = length tasks
  | Raise _ => (length (written host tasks) < length tasks)%nat
  end.
Proof.
  induction tasks as [|t tasks IH]; intros w; simpl; [done|].
  destruct (write host t) as [c|e]; simpl; [|lia].
  specialize (IH (if newline then w ++ [c; w_newline] else w ++ [c])).
  destruct (generate_loop _ _ _ _).1; lia.
Qed.

Lemma written_Forall2 host tasks :
  Forall2 (fun t c => write host t = Ok c)
          (take (length (written host tasks)) tasks) (written host tasks).
Proof.
  induction tasks as [|t tasks IH]; simpl; [constructor|].
  destruct (write host t) as [c|e] eqn:Hw; simpl; by constructor.
Qed.

(** Generation stops at the first task that cannot be written, with the
    exception it raises. *)
Lemma generate_loop_stops host newline l1 t l2 e : ∀ w,
  forallb (writable host) l1 = true → write host t = Raise e →
  (generate_loop host (l1 ++ t :: l2) newline w).1 = Raise e.
Proof.
  induction l1 as [|t1 l1 IH]; intros w Hall Ht; simpl.
  - by rewrite Ht.
  - simpl in Hall. apply andb_prop in Hall as [H1 Hall].
    unfold writable in H1. destruct (write host t1); [|done].
    by apply IH.
Qed.

(** C5 (as amended).  A build command called with a [_Files] without
    tokens as outputs does not raise: it returns an empty [_Files] and
    appends an [_NBuild] that has no output.  [GeneratorError('no
    output')] is raised later, by generation, when that edge is written
    (here: in a session whose earlier tasks can all be written). *)
Theorem C5_zero_outputs (host : Host) (r : build_rule)
    (inputs implicit order_only : pyval) (vars : variables)
    (implicit_outputs : pyval) (n : Ninju) (newline : bool) :
  forallb (writable host) (_seq n) = true →
  let call := build_fn r inputs (PFiles []) implicit order_only vars
                       implicit_outputs n in
  call = (Ok (PFiles []),
          set_seq (fun s => s ++
            [_NBuild (mk_build_edge [] (br_name r) inputs
               (PFiles (PStr (br_executable_path r) :: splice implicit))
               order_only vars implicit_outputs)]) n)
  ∧ (_generate host call.2 newline).1 = Raise (GeneratorError "no output")
  ∧ (generate host call.2 newline).1 = Raise (GeneratorError "no output").
Proof.
  intros Hall call.
  assert (Hcall : call = (Ok (PFiles []),
          set_seq (fun s => s ++
            [_NBuild (mk_build_edge [] (br_name r) inputs
               (PFiles (PStr (br_executable_path r) :: splice implicit))
               order_only vars implicit_outputs)]) n)).
  { unfold call.
    by rewrite (build_fn_eq _ _ _ _ _ _ _ _ [] n) by reflexivity. }
  split; [done|].
  assert (Hgen : (_generate host call.2 newline).1
                 = Raise (GeneratorError "no output")).
  { rewrite Hcall. unfold _generate. simpl.
    by apply generate_loop_stops. }
  split; [done|].
  unfold generate. destruct (_generate host call.2 newline) as [[[]|e] w];
    simpl in *; congruence.
Qed.

Lemma C5_zero_outputs_witness :
  let call := build_fn compile0 (PList [PStr "a.c"]) (PFiles []) PNone PNone
                       None PNone session1 in
  call = (Ok (PFiles []),
          set_seq (fun s => s ++
            [_NBuild (mk_build_edge [] "compile" (PList [PStr "a.c"])
               (PFiles [PStr "/usr/bin/cc"]) PNone None PNone)]) session1)
  ∧ (_generate host0 call.2 true).1 = Raise (GeneratorError "no output")
  ∧ (generate host0 call.2 true).1 = Raise (GeneratorError "no output").
Proof.
  apply (C5_zero_outputs host0 compile0 (PList [PStr "a.c"]) PNone PNone
           None PNone session1 true).
  by vm_compute.
Defined.

(** C5 as stated fails: the call with [n.files([])], an empty list wrapped
    as a [_Files], as outputs returns normally; no [GeneratorError] is
    raised by the call. *)
Lemma C5_counterexample :
  (_Files_getattr [PStr "a.c"] "compile" (files [PList []]) PNone PNone
                  None PNone session1).1
  = Ok (PFiles [])
  ∧ ∀ msg,
      (_Files_getattr [PStr "a.c"] "compile" (files [PList []]) PNone PNone
                      None PNone session1).1
      ≠ Raise (GeneratorError msg).
Proof. split; [by vm_compute|]. intros msg. by vm_compute. Qed.

(** ** What each call appends *)

Lemma cmd_eq host name executable args description depfile generator pool
    restat rspfile rspfile_content deps n r n1 :
  _setup_pool pool n = (Ok r, n1) →
  cmd host name executable args description depfile generator pool restat
      rspfile rspfile_content deps n
  = let v := mk_build_rule name executable args description depfile
               generator r restat rspfile rspfile_content deps
               (resolve_executable host executable) in
    (Ok tt, set_cmds (<[name := v]> (_cmds n1))
              (set_seq (fun s => s ++ [_NBuildRule v]) n1)).
Proof. intros H. unfold cmd. by erewrite bind_Ok by exact H. Qed.

Lemma cmd_raise host name executable args description depfile generator
    pool restat rspfile rspfile_content deps n e n1 :
  _setup_pool pool n = (Raise e, n1) →
  cmd host name executable args description depfile generator pool restat
      rspfile rspfile_content deps n
  = (Raise e, n1).
Proof. intros H. unfold cmd. by erewrite bind_Raise by exact H. Qed.

Lemma do_call_seq host c n :
  ∃ l, pools_step n (do_call host c n).2 l
       ∧ _seq (do_call host c n).2 = _seq n ++ l
       ∧ map kind_of l = expected_kinds host c n.
Proof.
  assert (Hnil : ∀ n' ks, _seq n' = _seq n → _pools n' = _pools n →
            ks = [] →
            ∃ l, pools_step n n' l ∧ _seq n' = _seq n ++ l
                 ∧ map kind_of l = ks).
  { intros n' ks Hs Hp ->. exists []. rewrite app_nil_r.
    split; [by left|done]. }
  assert (Hone : ∀ n' t ks, _seq n' = _seq n ++ [t] →
            _pools n' = _pools n → ks = [kind_of t] →
            kind_of t ≠ PoolDef →
            ∃ l, pools_step n n' l ∧ _seq n' = _seq n ++ l
                 ∧ map kind_of l = ks).
  { intros n' t ks Hs Hp -> Ht. exists [t].
    split; [|done]. left. split; [done|]. intros nm.
    by destruct t. }
  destruct c; simpl.
  - (* var *) by eapply Hone.
  - (* cmd *)
    destruct (pool_valid pool) eqn:Hv.
    + destruct (pool_depth_name pool) as [pname|] eqn:Hd.
      * destruct (_pools n !! pname) as [b|] eqn:Hp.
        -- erewrite bind_Ok by (eapply cmd_eq; by apply _setup_pool_again).
           simpl. by eapply Hone.
        -- erewrite bind_Ok by (eapply cmd_eq; by apply _setup_pool_new).
           eexists [_; _]. simpl. rewrite <-app_assoc.
           split; [|done]. right. exists pname.
           split; [done|]. split; [done|]. intros nm.
           unfold pool_defs; simpl. by destruct (String.eqb pname nm).
      * destruct (_setup_pool_builtin pool n Hv Hd) as [r Hr].
        erewrite bind_Ok by (eapply cmd_eq; exact Hr).
        simpl. by eapply Hone.
    + erewrite bind_Raise
        by (eapply cmd_raise; by apply _setup_pool_invalid).
      simpl. by apply Hnil.
  - (* exec_cmd *) by eapply Hone.
  - (* a build command *)
    unfold _Files_call.
    destruct (_Files_attribute host name) eqn:Hattr; [by apply Hnil|].
    destruct (_cmds n !! name) as [r|] eqn:Hreg.
    + destruct (_normalize_outputs_total outputs "tmp" n)
        as (outs & k & Hnorm).
      rewrite (_Files_getattr_eq _ _ r) by done.
      erewrite build_fn_eq by exact Hnorm.
      simpl. by eapply Hone.
    + unfold _Files_getattr, mbind, M_bind, bind, gets. rewrite Hreg.
      simpl. by apply Hnil.
  - (* an exec command *)
    unfold _Target_call.
    destruct (_Target_attribute host name) eqn:Hattr; [by apply Hnil|].
    destruct (_exec_cmds n !! name) as [r|] eqn:Hreg.
    + rewrite (_Target_getattr_eq _ _ r) by done.
      destruct (_is_single_output t) eqn:Hs.
      * destruct (_normalize_outputs_total t "tmp" n) as (outs & k & Hnorm).
        erewrite exec_fn_single by done.
        simpl. by eapply Hone.
      * rewrite exec_fn_not_single by done.
        simpl. by apply Hnil.
    + unfold _Target_getattr, mbind, M_bind, bind, gets. rewrite Hreg.
      simpl. by apply Hnil.
  - (* phony *) by eapply Hone.
  - (* default *) by eapply Hone.
  - (* dir *)
    destruct v as [key|]; simpl.
    + destruct (String.eqb key "") eqn:Hkey; simpl.
      * by apply Hnil.
      * by eapply Hone.
    + by apply Hnil.
  - by apply Hnil.
  - by apply Hnil.
  - by apply Hnil.
  - by apply Hnil.
Qed.

Lemma do_call_appended host c n :
  _seq (do_call host c n).2 = _seq n ++ appended host c n.
Proof.
  destruct (do_call_seq host c n) as (l & _ & Hl & _). unfold appended.
  by rewrite Hl, drop_app_length.
Qed.

Lemma appended_kinds host c n :
  map kind_of (appended host c n) = expected_kinds host c n.
Proof.
  destruct (do_call_seq host c n) as (l & _ & Hl & Hk). unfold appended.
  by rewrite Hl, drop_app_length.
Qed.

(** ** The pool registry across a session *)

Lemma pool_defs_app name l1 l2 :
  pool_defs name (l1 ++ l2) = (pool_defs name l1 + pool_defs name l2)%nat.
Proof. unfold pool_defs. by rewrite List.filter_app, length_app. Qed.

(** A registered pool stays registered. *)
Lemma do_call_pools_mono host c n name :
  is_Some (_pools n !! name) → is_Some (_pools (do_call host c n).2 !! name).
Proof.
  intros Hreg.
  destruct (do_call_seq host c n) as (l & [[-> _]|(pn & _ & -> & _)] & _);
    [done|].
  rewrite lookup_insert_is_Some. destruct (decide (pn = name)); auto.
Qed.

Lemma run_calls_pools_mono host cs name : ∀ n,
  is_Some (_pools n !! name) →
  is_Some (_pools (run_calls host cs n).2 !! name).
Proof.
  induction cs as [|c cs IH]; intros n Hreg; simpl; [done|].
  pose proof (do_call_pools_mono host c n name Hreg) as Hc.
  unfold mbind, M_bind, bind.
  destruct (do_call host c n) as [[v|e] n']; simpl in *; auto.
Qed.

(** Every call keeps the registry and the log in agreement. *)
Lemma do_call_pool_inv host c n :
  pool_inv n → pool_inv (do_call host c n).2.
Proof.
  intros Hinv name.
  destruct (do_call_seq host c n) as (l & Hstep & -> & _).
  rewrite pool_defs_app, Hinv.
  destruct Hstep as [[-> Hl]|(pn & Hnew & -> & Hl)]; rewrite Hl.
  - lia.
  - destruct (String.eqb_spec pn name) as [->|Hne].
    + by rewrite Hnew, lookup_insert_eq.
    + rewrite lookup_insert_ne by done. lia.
Qed.

Lemma run_calls_pool_inv host cs : ∀ n,
  pool_inv n → pool_inv (run_calls host cs n).2.
Proof.
  induction cs as [|c cs IH]; intros n Hinv; simpl; [done|].
  pose proof (do_call_pool_inv host c n Hinv) as Hc.
  unfold mbind, M_bind, bind.
  destruct (do_call host c n) as [[v|e] n']; simpl in *; auto.
Qed.

Lemma Ninju__init__pool_inv host bf bd chk :
  pool_inv (Ninju__init__ host bf bd chk).2.
Proof.
  unfold Ninju__init__, bootstrap.
  unfold mbind, M_bind, bind, gets; simpl.
  destruct (negb chk && _); intros name; reflexivity.
Qed.

(** Whatever the script of a session, its log declares each pool at most
    once, and exactly the pools of the registry. *)
Lemma session_pool_defs host bf bd chk cs name :
  let n := (run_calls host cs (Ninju__init__ host bf bd chk).2).2 in
  (pool_defs name (_seq n) ≤ 1)%nat
  ∧ (pool_defs name (_seq n) = 1%nat ↔ is_Some (_pools n !! name)).
Proof.
  intros n.
  pose proof (run_calls_pool_inv host cs _
                (Ninju__init__pool_inv host bf bd chk) name) as H.
  fold n in H. rewrite H.
  destruct (_pools n !! name) as [b|]; (split; [lia|]); split;
    try done; by intros [? ?].
Qed.

(** C8. For an integer depth [d >= 1] that the session has not registered
    yet, [N >= 2] requests in a row append exactly one [_NPool] for [d],
    on the first request, leave the rest of the session as it was, and
    each return the name [pool_<d>]; and after the first request, whatever
    the session does next, a request for [d] returns that name again and
    changes nothing. *)
Theorem C8_pool_idempotent (d : Z) (N : nat) (n : Ninju) :
  1 ≤ d → (2 ≤ N)%nat →
  _pools n !! ("pool_" +:+ pretty d) = None →
  request_pool N (PInt d) n
  = (Ok (replicate N (Some ("pool_" +:+ pretty d))),
     set_pools (<["pool_" +:+ pretty d := true]> (_pools n))
       (set_seq (fun s => s ++ [_NPool ("pool_" +:+ pretty d) (PInt d)]) n))
  ∧ (_setup_pool (PInt d) n).2 = (request_pool N (PInt d) n).2
  ∧ ∀ host cs,
      let n' := (run_calls host cs (_setup_pool (PInt d) n).2).2 in
      _setup_pool (PInt d) n' = (Ok (Some ("pool_" +:+ pretty d)), n').
Proof.
  intros Hd HN Hnew.
  pose proof (pool_depth_name_int d Hd) as Hname.
  destruct N as [|N]; [lia|].
  cbn [request_pool].
  erewrite bind_Ok by by apply _setup_pool_new.
  erewrite bind_Ok.
  2:{ apply request_pool_registered; [done|].
      simpl. rewrite lookup_insert_eq. by eexists. }
  split; [done|].
  erewrite _setup_pool_new by done.
  split; [done|].
  intros host cs. apply _setup_pool_again; [done|].
  apply run_calls_pools_mono. simpl. rewrite lookup_insert_eq. by eexists.
Qed.

Lemma C8_pool_idempotent_witness :
  request_pool 3 (PInt 4) session0
  = (Ok [Some "pool_4"; Some "pool_4"; Some "pool_4"],
     set_pools (<["pool_4" := true]> (_pools session0))
       (set_seq (fun s => s ++ [_NPool "pool_4" (PInt 4)]) session0))
  ∧ (_setup_pool (PInt 4) session0).2
    = (request_pool 3 (PInt 4) session0).2
  ∧ ∀ host cs,
      let n' := (run_calls host cs (_setup_pool (PInt 4) session0).2).2 in
      _setup_pool (PInt 4) n' = (Ok (Some "pool_4"), n').
Proof.
  apply (C8_pool_idempotent 4 3 session0); [lia | lia | by vm_compute].
Defined.

(** C2 (as amended).  No call touches the tasks already in the log, and
    what a call appends depends on the call: [var], [exec_cmd], [phony],
    [default] and a registered build or exec command that does not raise
    append exactly one statement; [cmd] appends one [_NBuildRule],
    preceded by one [_NPool] when its pool is an integer depth that is not
    registered yet, and nothing when its pool is invalid; [dir] appends
    one variable when it is given a variable name and nothing otherwise;
    [files], [target], [root] and [builddir], an unregistered command, an
    exec command with an invalid target, and a command called under a
    name that the reference has as attribute already ([files], [_n],
    [target], [phony], [__str__], ...: such a call raises [TypeError])
    append nothing. *)
Theorem C2_statements_per_call (host : Host) (c : call) (n : Ninju) :
  _seq (do_call host c n).2 = _seq n ++ appended host c n
  ∧ map kind_of (appended host c n) = expected_kinds host c n.
Proof. split; [apply do_call_appended | apply appended_kinds]. Qed.

(** C2 as stated fails: [cmd] with a pool depth that is not registered
    yet appends two statements, and [files] appends none. *)
Lemma C2_counterexample :
  let c := c_cmd "link" "cc" None None None false (PInt 2) false
                 None None None in
  map kind_of (appended host0 c session0) = [PoolDef; BuildRuleDef]
  ∧ length (appended host0 c session0) ≠ 1%nat
  ∧ appended host0 (c_files [PStr "a.c"]) session0 = [].
Proof. split; [by vm_compute|]. split; by vm_compute. Qed.

(** ** The log of a script and its serialization *)

Lemma run_calls_seq host cs : ∀ n,
  _seq (run_calls host cs n).2 = _seq n ++ script_log host cs n.
Proof.
  induction cs as [|c cs IH]; intros n; simpl.
  - by rewrite app_nil_r.
  - pose proof (do_call_appended host c n) as Hc.
    unfold mbind, M_bind, bind.
    destruct (do_call host c n) as [[v|e] n']; simpl in *.
    + by rewrite IH, Hc, <-app_assoc.
    + done.
Qed.

(** A generation that raises stopped at the first task whose [write]
    raises, with that exception. *)
Lemma generate_loop_raise host newline tasks e : ∀ w,
  (generate_loop host tasks newline w).1 = Raise e →
  ∃ t, tasks !! length (written host tasks) = Some t
       ∧ write host t = Raise e.
Proof.
  induction tasks as [|t tasks IH]; intros w; simpl; [done|].
  destruct (write host t) as [c|e'] eqn:Hw; simpl.
  - intros H. by apply IH in H.
  - intros [= ->]. by exists t.
Qed.

(** C1. The log of a session after a script is the log before it followed
    by what the calls appended, call after call; generation hands the
    tasks of the log to the writer front to back, one statement per task:
    the statements the writer receives are those of the tasks of the log,
    in the order of the log.  When generation succeeds, every task of the
    log has been written; generation raises only at a task whose [write]
    raises, with the exception of that task, after it has written every
    task before it. *)
Theorem C1_statement_order (host : Host) (cs : list call) (n : Ninju)
    (newline : bool) :
  let n' := (run_calls host cs n).2 in
  let g := _generate host n' newline in
  let emitted := statements g.2 in
  _seq n' = _seq n ++ script_log host cs n
  ∧ Forall2 (fun t c => write host t = Ok c)
            (take (length emitted) (_seq n')) emitted
  ∧ match g.1 with
    | Ok _ => length emitted = length (_seq n')
    | Raise e =>
        ∃ t, _seq n' !! length emitted = Some t ∧ write host t = Raise e
    end
  ∧ statements (generate host n' newline).2 = emitted
  ∧ (generate host n' newline).1 = g.1.
Proof.
  intros n' g emitted.
  assert (He : emitted = written host (_seq n')).
  { unfold emitted, g, _generate. by rewrite generate_loop_statements. }
  split; [apply run_calls_seq|]. rewrite He.
  split; [apply written_Forall2|].
  split.
  { pose proof (generate_loop_result host newline (_seq n') header) as Hok.
    fold (_generate host n' newline) in Hok. fold g in Hok.
    destruct g.1 as [[]|e] eqn:Hg; [done|].
    by apply (generate_loop_raise host newline (_seq n') e header). }
  rewrite <-He. unfold generate. fold g.
  destruct g as [[[]|e] w]; simpl in *; [|done].
  unfold emitted. rewrite statements_app. simpl. by rewrite app_nil_r.
Qed.

(** ** The functions on concrete sessions *)

(** [Ninju()] seeds the log with three variables, the [configure] rule and
    the edge that regenerates the build file. *)
Example session0_log :
  map kind_of (_seq session0)
  = [VariableDef; VariableDef; VariableDef; BuildRuleDef; BuildEdge]
  ∧ _name_count session0 = 0.
Proof. by vm_compute. Qed.

(** [cmd('compile', 'cc')] then [files('a.c').compile()]: one rule, then
    one edge whose output is the first generated name and whose implicit
    inputs hold the path of [cc]. *)
Example compile_a_c :
  script_log host0
    [c_cmd "compile" "cc" None None None false PNone false None None None;
     c_build [PStr "a.c"] "compile" PNone PNone PNone None PNone]
    session0
  = [_NBuildRule compile0;
     _NBuild (mk_build_edge [PStr "${builddir}/.ninju_1.tmp"] "compile"
                (PList [PStr "a.c"]) (PFiles [PStr "/usr/bin/cc"])
                PNone None PNone)].
Proof. by vm_compute. Qed.

(** Pool depths 2, 4, 2 requested by three rules: two pool declarations,
    and the first and the third rule refer to the same pool. *)
Example pools_2_4_2 :
  let mk name d :=
    c_cmd name "cc" None None None false (PInt d) false None None None in
  let log := script_log host0 [mk "a" 2; mk "b" 4; mk "c" 2] session0 in
  map kind_of log
  = [PoolDef; BuildRuleDef; PoolDef; BuildRuleDef; BuildRuleDef]
  ∧ omap (fun t => match t with
                   | _NPool name _ => Some name
                   | _NBuildRule r => br_pool r
                   | _ => None
                   end) log
    = ["pool_2"; "pool_2"; "pool_4"; "pool_4"; "pool_2"].
Proof. by vm_compute. Qed.

(** An exec command refuses a target of two names. *)
Example exec_two_targets :
  _Target_getattr (PList [PStr "x"; PStr "y"]) "run" PNone None session1
  = (Raise (ConfigurationError "exec_cmd can only have one target"),
     session1).
Proof. by vm_compute. Qed.

(** The statements generation writes for the new session. *)
Example generate_session0 :
  statements (generate host0 session0 true).2
  = [w_variable "ninja_required_version" "1.7" 0;
     w_variable "root" "." 0;
     w_variable "builddir" "${root}/.builddir" 0;
     w_rule "configure" "/proj/configure.py"
            (Some "Regenerate ninja build file") None true None false
            None None None;
     w_build (PList [PStr "${root}/build.ninja"]) "configure" (Some [])
             (Some ["/proj/configure.py"; "/lib/ninju.py";
                    "/lib/ninja_syntax.py"])
             None None None].
Proof. by vm_compute. Qed.

(** * More of the module *)

(** ** The effect of every call *)

Lemma _normalize_outputs_count outputs ext n :
  ∃ outs k, _normalize_outputs outputs ext n
            = (Ok outs, set_name_count (_name_count n + Z.of_nat k) n).
Proof.
  unfold _normalize_outputs.
  destruct (negb (py_truth outputs)).
  { exists [PStr (generated_name (_name_count n + 1) ext)], 1%nat.
    by erewrite bind_Ok by apply _gen_name_eq. }
  destruct (is_int outputs) as [z|].
  { eexists _, _. apply gen_names_eq. }
  exists (match outputs with
          | PFiles fs => fs | PList l => l | _ => as_list outputs end),
         0%nat.
  rewrite Z.add_0_r, set_name_count_id. by destruct outputs.
Qed.

Lemma _setup_pool_outcome pool n :
  (pool_valid pool = false ∧ _setup_pool pool n = (Raise pool_error, n))
  ∨ ∃ r n1, _setup_pool pool n = (Ok r, n1) ∧ pool_outcome n pool r n1.
Proof.
  destruct (pool_valid pool) eqn:Hv.
  2:{ left. split; [done|]. by apply _setup_pool_invalid. }
  right. destruct (pool_depth_name pool) as [name|] eqn:Hd.
  - destruct (_pools n !! name) as [b|] eqn:Hp.
    + exists (Some name), n. split.
      * apply _setup_pool_again; [done|]. by eexists.
      * left. split; [done|]. right; right. exists name.
        split; [done|]. rewrite Hp. by eexists.
    + eexists _, _. split; [by apply _setup_pool_new|].
      right. by exists name.
  - exists (if py_eq_str pool "console" then Some "console" else None), n.
    split.
    + unfold pool_valid, pool_depth_name, _setup_pool in *.
      destruct pool; simpl in *; try done.
      * by destruct (_ <? 1).
      * by destruct (_ <? 1).
      * by rewrite Hv.
    + left. split; [done|]. destruct (py_eq_str pool "console"); auto.
Qed.

Lemma do_call_effect host c n :
  call_effect host n c (do_call host c n).1 (do_call host c n).2.
Proof.
  destruct c; [simpl..| | |simpl|simpl|simpl|simpl|simpl].
  - apply eff_var.
  - destruct (_setup_pool_outcome pool n) as [[Hv Hr]|(r & n1 & Hr & Ho)].
    + erewrite bind_Raise by (eapply cmd_raise; exact Hr).
      by apply eff_cmd_invalid.
    + erewrite bind_Ok by (eapply cmd_eq; exact Hr).
      simpl. by apply eff_cmd.
  - apply eff_exec_cmd.
  - unfold _Files_call.
    destruct (_Files_attribute host name) eqn:Hattr;
      [by apply eff_build_attribute|].
    destruct (_cmds n !! name) as [r|] eqn:Hreg.
    + destruct (_normalize_outputs_count outputs "tmp" n)
        as (outs & k & Hnorm).
      rewrite (_Files_getattr_eq _ _ r) by done.
      erewrite build_fn_eq by exact Hnorm. simpl. by eapply eff_build.
    + unfold _Files_getattr, mbind, M_bind, bind, gets. rewrite Hreg.
      simpl. by apply eff_build_missing.
  - unfold _Target_call.
    destruct (_Target_attribute host name) eqn:Hattr;
      [by apply eff_exec_attribute|].
    destruct (_exec_cmds n !! name) as [r|] eqn:Hreg.
    + rewrite (_Target_getattr_eq _ _ r) by done.
      destruct (_is_single_output t) eqn:Hs.
      * destruct (_normalize_outputs_count t "tmp" n) as (outs & k & Hnorm).
        erewrite exec_fn_single by done. simpl. by eapply eff_exec.
      * rewrite exec_fn_not_single by done. simpl.
        by eapply eff_exec_not_single.
    + unfold _Target_getattr, mbind, M_bind, bind, gets. rewrite Hreg.
      simpl. by apply eff_exec_missing.
  - cbn [do_call]. unfold phony. rewrite _Files_flat_map. simpl.
    rewrite app_nil_r. apply eff_phony.
  - cbn [do_call]. unfold default. rewrite _Files_flat_map. simpl.
    apply eff_default.
  - destruct v as [key|]; simpl.
    + destruct (String.eqb_spec key "") as [->|Hkey]; simpl.
      * apply eff_dir_plain. by right.
      * by apply eff_dir_var.
    + apply eff_dir_plain. by left.
  - by apply eff_pure.
  - by apply eff_pure.
  - by apply eff_pure.
  - by apply eff_pure.
Qed.

(** ** Invariants of a session *)

Lemma lookup_snoc_inv {A} (l : list A) (t x : A) i :
  (l ++ [t]) !! i = Some x →
  ((i < length l)%nat ∧ l !! i = Some x) ∨ (i = length l ∧ x = t).
Proof.
  intros H. destruct (decide (i < length l)%nat) as [Hlt|Hge].
  - left. split; [done|]. by rewrite lookup_app_l in H.
  - right. pose proof (lookup_lt_Some _ _ _ H) as Hi.
    rewrite length_app in Hi. simpl in Hi.
    assert (i = length l) as -> by lia. split; [done|].
    rewrite list_lookup_middle in H by done. congruence.
Qed.

Lemma rules_before_edges_snoc l t :
  rules_before_edges l →
  (∀ b, t = _NBuild b → ∃ t0, t0 ∈ l ∧ declares_rule (b_rule b) t0) →
  rules_before_edges (l ++ [t]).
Proof.
  intros Hl Ht i b Hi.
  apply lookup_snoc_inv in Hi as [[Hlt Hi]|[-> Heq]]; [|subst t].
  - destruct (Hl i b Hi) as (j & t0 & Hj & Hj0 & Hd).
    exists j, t0. split; [done|]. split; [|done].
    rewrite lookup_app_l; [done|lia].
  - destruct (Ht b eq_refl) as (t0 & Hin & Hd).
    apply list_elem_of_lookup in Hin as [j Hj].
    exists j, t0. split; [by eapply lookup_lt_Some|]. split; [|done].
    rewrite lookup_app_l; [done|by eapply lookup_lt_Some].
Qed.

Lemma pools_before_rules_snoc l t :
  pools_before_rules l →
  (∀ r p, t = _NBuildRule r → br_pool r = Some p →
     p = "console" ∨ ∃ depth, _NPool p depth ∈ l) →
  pools_before_rules (l ++ [t]).
Proof.
  intros Hl Ht i r p Hi Hp.
  apply lookup_snoc_inv in Hi as [[Hlt Hi]|[-> Heq]]; [|subst t].
  - destruct (Hl i r p Hi Hp) as [->|(j & depth & Hj & Hj0)]; [by left|].
    right. exists j, depth. split; [done|].
    rewrite lookup_app_l; [done|lia].
  - destruct (Ht r p eq_refl Hp) as [->|(depth & Hin)]; [by left|].
    right. apply list_elem_of_lookup in Hin as [j Hj].
    exists j, depth. split; [by eapply lookup_lt_Some|].
    rewrite lookup_app_l; [done|by eapply lookup_lt_Some].
Qed.

(** Appending a task that is neither a rule nor an edge, or moving the
    counter, keeps the invariant. *)
Lemma session_inv_snoc_other n t :
  session_inv n →
  (∀ b, t ≠ _NBuild b) → (∀ r, t ≠ _NBuildRule r) →
  session_inv (set_seq (fun s => s ++ [t]) n).
Proof.
  intros ((Hc & He & Hp) & Hr & Hq) Hb Hrule.
  split; [|split]; simpl.
  - split; [|split]; simpl.
    + intros name r H. destruct (Hc name r H) as [? ?].
      split; [done|]. apply elem_of_app; by left.
    + intros name r H. destruct (He name r H) as [? ?].
      split; [done|]. apply elem_of_app; by left.
    + intros name H. destruct (Hp name H) as [d ?].
      exists d. apply elem_of_app; by left.
  - apply rules_before_edges_snoc; [done|]. intros b ->. by destruct (Hb b).
  - apply pools_before_rules_snoc; [done|].
    intros r p ->. by destruct (Hrule r).
Qed.

Lemma session_inv_name_count n c :
  session_inv n → session_inv (set_name_count c n).
Proof. by intros H. Qed.

(** Appending the edge of a rule that the log declares. *)
Lemma session_inv_snoc_edge n b t0 :
  session_inv n → t0 ∈ _seq n → declares_rule (b_rule b) t0 →
  session_inv (set_seq (fun s => s ++ [_NBuild b]) n).
Proof.
  intros ((Hc & He & Hp) & Hr & Hq) Hin Hd.
  split; [|split]; simpl.
  - split; [|split]; simpl.
    + intros name r H. destruct (Hc name r H) as [? ?].
      split; [done|]. apply elem_of_app; by left.
    + intros name r H. destruct (He name r H) as [? ?].
      split; [done|]. apply elem_of_app; by left.
    + intros name H. destruct (Hp name H) as [d ?].
      exists d. apply elem_of_app; by left.
  - apply rules_before_edges_snoc; [done|]. intros ? [= <-]. eauto.
  - by apply pools_before_rules_snoc.
Qed.

(** What an accepted pool request leaves: the invariant, and the pool it
    returns declared in the log. *)
Lemma pool_outcome_inv n pool r n1 :
  session_inv n → pool_outcome n pool r n1 →
  session_inv n1
  ∧ _cmds n1 = _cmds n
  ∧ ∀ p, r = Some p → p = "console" ∨ ∃ depth, _NPool p depth ∈ _seq n1.
Proof.
  intros Hinv [[-> Hr]|(name & -> & Hnew & ->)].
  - split; [done|]. split; [done|]. intros p ->.
    destruct Hr as [?|[[= ->]|(name & [= ->] & Hreg)]]; [done|by left|].
    right. destruct Hinv as ((_ & _ & Hp) & _). by apply Hp.
  - split; [|split; [done|]].
    + pose proof (session_inv_snoc_other n (_NPool name pool) Hinv
                    ltac:(done) ltac:(done)) as ((Hc & He & Hp) & Hr & Hq).
      split; [|by split]. split; [done|]. split; [done|].
      simpl. intros nm Hnm. apply lookup_insert_is_Some in Hnm.
      destruct Hnm as [<-|[_ Hnm]].
      * exists pool. apply elem_of_app; right. by apply list_elem_of_singleton.
      * by apply Hp.
    + intros p [= <-]. right. exists pool. simpl.
      apply elem_of_app; right. by apply list_elem_of_singleton.
Qed.

Lemma call_effect_inv host n c res n' :
  session_inv n → call_effect host n c res n' → session_inv n'.
Proof.
  intros Hinv Heff. destruct Heff as
    [ key value
    | name executable args description depfile generator pool restat
        rspfile rspfile_content deps r n1 Hpool Hout
    | | name executable args description rspfile rspfile_content
    | p name outputs implicit order_only vars io r outs k Hattr Hreg Hnorm
    | | | t name inputs vars r outs k Hattr Hreg Hs Hnorm
    | | | | t inputs | targets | args key Hkey | | ]; try done.
  - by apply session_inv_snoc_other.
  - destruct (pool_outcome_inv _ _ _ _ Hinv Hout)
      as (((Hc & He & Hp) & Hr & Hq) & Hcmds & Hdecl).
    set (v := mk_build_rule _ _ _ _ _ _ _ _ _ _ _ _).
    split; [|split]; simpl.
    + split; [|split]; simpl.
      * intros nm r0 H. apply lookup_insert_Some in H as [[<- <-]|[Hne H]].
        -- split; [done|]. apply elem_of_app; right.
           by apply list_elem_of_singleton.
        -- destruct (Hc nm r0 H) as [? ?].
           split; [done|]. apply elem_of_app; by left.
      * intros nm r0 H. destruct (He nm r0 H) as [? ?].
        split; [done|]. apply elem_of_app; by left.
      * intros nm H. destruct (Hp nm H) as [d ?].
        exists d. apply elem_of_app; by left.
    + by apply rules_before_edges_snoc.
    + apply pools_before_rules_snoc; [done|].
      intros r0 p [= <-] Hpl. by apply Hdecl.
  - destruct Hinv as ((Hc & He & Hp) & Hr & Hq).
    set (v := mk_exec_rule _ _ _ _ _ _ _).
    split; [|split]; simpl.
    + split; [|split]; simpl.
      * intros nm r0 H. destruct (Hc nm r0 H) as [? ?].
        split; [done|]. apply elem_of_app; by left.
      * intros nm r0 H. apply lookup_insert_Some in H as [[<- <-]|[Hne H]].
        -- split; [done|]. apply elem_of_app; right.
           by apply list_elem_of_singleton.
        -- destruct (He nm r0 H) as [? ?].
           split; [done|]. apply elem_of_app; by left.
      * intros nm H. destruct (Hp nm H) as [d ?].
        exists d. apply elem_of_app; by left.
    + by apply rules_before_edges_snoc.
    + by apply pools_before_rules_snoc.
  - pose proof Hinv as ((Hc & He & Hp) & Hr & Hq).
    destruct (Hc name r Hreg) as [Hname Hin].
    by eapply (session_inv_snoc_edge (set_name_count _ n) _ (_NBuildRule r)).
  - pose proof Hinv as ((Hc & He & Hp) & Hr & Hq).
    destruct (He name r Hreg) as [Hname Hin].
    by eapply (session_inv_snoc_edge (set_name_count _ n) _ (_NExecRule r)).
  - by apply session_inv_snoc_other.
  - by apply session_inv_snoc_other.
  - by apply session_inv_snoc_other.
Qed.

Lemma run_calls_session_inv host cs : ∀ n,
  session_inv n → session_inv (run_calls host cs n).2.
Proof.
  induction cs as [|c cs IH]; intros n Hinv; simpl; [done|].
  pose proof (call_effect_inv host n c _ _ Hinv (do_call_effect host c n))
    as Hc.
  unfold mbind, M_bind, bind.
  destruct (do_call host c n) as [[v|e] n']; simpl in *; auto.
Qed.

Lemma blank_session_inv host bf bd : session_inv (blank host bf bd).
Proof.
  split; [|split].
  - split; [|split]; simpl; intros nm.
    + intros r H. by rewrite lookup_empty in H.
    + intros r H. by rewrite lookup_empty in H.
    + intros [b H]. by rewrite lookup_empty in H.
  - intros i b H. simpl in H. by rewrite lookup_nil in H.
  - intros i r p H. simpl in H. by rewrite lookup_nil in H.
Qed.

(** [Ninju.__init__] is the directory guard followed by a script. *)
Lemma Ninju__init__script host bf bd chk :
  (Ninju__init__ host bf bd chk).2
  = if negb chk && negb (String.eqb (caller_dir host) (getcwd host))
    then blank host bf bd
    else (run_calls host (bootstrap_script host bf bd) (blank host bf bd)).2.
Proof.
  unfold Ninju__init__, bootstrap.
  unfold mbind at 1, M_bind at 1, bind at 1, gets at 1; simpl.
  destruct (negb chk && _); reflexivity.
Qed.

Lemma session_inv_reachable host bf bd chk cs :
  session_inv (run_calls host cs (Ninju__init__ host bf bd chk).2).2.
Proof.
  apply run_calls_session_inv. rewrite Ninju__init__script.
  destruct (negb chk && _).
  - apply blank_session_inv.
  - apply run_calls_session_inv, blank_session_inv.
Qed.

(** ** Pools across a session *)

Lemma pool_defs_elem name t l :
  t ∈ l → is_pool_def name t = true → (1 ≤ pool_defs name l)%nat.
Proof.
  intros Hin Ht. induction l as [|t' l IH]; [by apply elem_of_nil in Hin|].
  unfold pool_defs in *. simpl.
  apply elem_of_cons in Hin as [<-|Hin].
  - rewrite Ht. simpl. lia.
  - specialize (IH Hin). destruct (is_pool_def name t'); simpl; lia.
Qed.

Lemma pool_defs_two name l i j x y :
  (i < j)%nat → l !! i = Some x → l !! j = Some y →
  is_pool_def name x = true → is_pool_def name y = true →
  (2 ≤ pool_defs name l)%nat.
Proof.
  intros Hij Hi Hj Hx Hy.
  rewrite <-(take_drop_middle l i x Hi), pool_defs_app.
  assert (Hin : y ∈ drop (S i) l).
  { apply list_elem_of_lookup. exists (j - S i)%nat.
    rewrite lookup_drop. by replace (S i + (j - S i))%nat with j by lia. }
  pose proof (pool_defs_elem name y _ Hin Hy) as Hrest.
  unfold pool_defs in *. simpl. rewrite Hx. simpl. lia.
Qed.

(** X1. Whatever the script of a session, its log never declares a pool
    twice: two pool statements of the same name are the same statement;
    and the pools the log declares are exactly those of the registry. *)
Theorem X1_pool_declared_once (host : Host) (build_file build_dir : string)
    (no_cwd_check : bool) (cs : list call) :
  let n := (run_calls host cs
              (Ninju__init__ host build_file build_dir no_cwd_check).2).2 in
  (∀ i j name d1 d2,
     _seq n !! i = Some (_NPool name d1) →
     _seq n !! j = Some (_NPool name d2) → i = j)
  ∧ (∀ name, is_Some (_pools n !! name)
             ↔ ∃ i d, _seq n !! i = Some (_NPool name d)).
Proof.
  intros n.
  assert (Hinv : pool_inv n).
  { apply run_calls_pool_inv, Ninju__init__pool_inv. }
  split.
  - intros i j name d1 d2 Hi Hj.
    assert (Hle : (pool_defs name (_seq n) ≤ 1)%nat).
    { rewrite Hinv. destruct (_pools n !! name); lia. }
    assert (Hp : ∀ d, is_pool_def name (_NPool name d) = true).
    { intros d. simpl. apply String.eqb_refl. }
    destruct (Nat.lt_trichotomy i j) as [Hlt|[->|Hlt]]; [|done|].
    + pose proof (pool_defs_two name _ i j _ _ Hlt Hi Hj (Hp d1) (Hp d2)).
      lia.
    + pose proof (pool_defs_two name _ j i _ _ Hlt Hj Hi (Hp d2) (Hp d1)).
      lia.
  - intros name. split.
    + intros Hreg.
      destruct (session_inv_reachable host build_file build_dir
                  no_cwd_check cs) as ((_ & _ & Hp) & _).
      destruct (Hp name Hreg) as [d Hin].
      apply list_elem_of_lookup in Hin as [i Hi]. by exists i, d.
    + intros (i & d & Hi).
      assert (Hin : _NPool name d ∈ _seq n).
      { apply list_elem_of_lookup. by exists i. }
      pose proof (pool_defs_elem name _ _ Hin) as H1.
      rewrite Hinv in H1. simpl in H1. rewrite String.eqb_refl in H1.
      specialize (H1 eq_refl). destruct (_pools n !! name); [by eexists|lia].
Qed.

(** X2. The pool requests [_setup_pool] accepts and refuses.  [None] and
    ['console'] are accepted without a declaration; an integer is accepted
    from 1 on (1 included, whatever the error message says) under the
    name [pool_<depth>]; [True] is an integer to Python and is accepted
    under the name [pool_True]; an integer below 1, [False], any other
    string, a list, a tuple, a [_Files] and a [_Target] raise
    [ConfigurationError] and leave the session as it was. *)
Theorem X2_setup_pool_requests (n : Ninju) :
  _setup_pool PNone n = (Ok None, n)
  ∧ _setup_pool (PStr "console") n = (Ok (Some "console"), n)
  ∧ (∀ d, 1 ≤ d → (_setup_pool (PInt d) n).1
                   = Ok (Some ("pool_" +:+ pretty d)))
  ∧ (_setup_pool (PBool true) n).1 = Ok (Some "pool_True")
  ∧ (∀ d, d < 1 → _setup_pool (PInt d) n = (Raise pool_error, n))
  ∧ _setup_pool (PBool false) n = (Raise pool_error, n)
  ∧ (∀ s, s ≠ "console" → _setup_pool (PStr s) n = (Raise pool_error, n))
  ∧ (∀ l, _setup_pool (PList l) n = (Raise pool_error, n)
          ∧ _setup_pool (PTuple l) n = (Raise pool_error, n)
          ∧ _setup_pool (PFiles l) n = (Raise pool_error, n))
  ∧ (∀ t, _setup_pool (PTarget t) n = (Raise pool_error, n)).
Proof.
  split; [done|]. split; [done|]. split; [|split]; [| |split; [|split]].
  - intros d Hd. pose proof (pool_depth_name_int d Hd) as Hname.
    destruct (_pools n !! ("pool_" +:+ pretty d)) as [b|] eqn:Hp.
    + by erewrite _setup_pool_again by (done || by eexists).
    + by erewrite _setup_pool_new by done.
  - destruct (_pools n !! "pool_True") as [b|] eqn:Hp.
    + by erewrite (_setup_pool_again (PBool true)) by (done || by eexists).
    + by erewrite (_setup_pool_new (PBool true)) by done.
  - intros d Hd. apply _setup_pool_invalid. simpl.
    apply negb_false_iff, Z.ltb_lt. lia.
  - by apply _setup_pool_invalid.
  - split; [|by repeat split].
    intros s Hs. apply _setup_pool_invalid. simpl.
    by apply String.eqb_neq.
Qed.

(** X3. Whatever the script of a session, every build edge of its log
    comes after a rule statement that declares the rule the edge names:
    generation never writes an edge before its rule. *)
Theorem X3_rule_before_edge (host : Host) (build_file build_dir : string)
    (no_cwd_check : bool) (cs : list call) :
  let n := (run_calls host cs
              (Ninju__init__ host build_file build_dir no_cwd_check).2).2 in
  ∀ i b, _seq n !! i = Some (_NBuild b) →
    ∃ j t, (j < i)%nat ∧ _seq n !! j = Some t
           ∧ match t with
             | _NBuildRule r => br_name r = b_rule b
             | _NExecRule r => er_name r = b_rule b
             | _ => False
             end.
Proof.
  intros n.
  destruct (session_inv_reachable host build_file build_dir no_cwd_check cs)
    as (_ & Hr & _).
  exact Hr.
Qed.

Lemma X3_rule_before_edge_witness :
  ∃ j t, (j < 6)%nat
    ∧ _seq (run_calls host0
              [c_cmd "compile" "cc" None None None false PNone false
                     None None None;
               c_build [PStr "a.c"] "compile" PNone PNone PNone None PNone]
              (Ninju__init__ host0 "build.ninja" ".builddir" true).2).2 !! j
      = Some t
    ∧ match t with
      | _NBuildRule r => br_name r = "compile"
      | _NExecRule r => er_name r = "compile"
      | _ => False
      end.
Proof.
  apply (X3_rule_before_edge host0 "build.ninja" ".builddir" true
           [c_cmd "compile" "cc" None None None false PNone false
                  None None None;
            c_build [PStr "a.c"] "compile" PNone PNone PNone None PNone]
           6%nat
           (mk_build_edge [PStr "${builddir}/.ninju_1.tmp"] "compile"
              (PList [PStr "a.c"]) (PFiles [PStr "/usr/bin/cc"])
              PNone None PNone)).
  by vm_compute.
Defined.

(** X4. Whatever the script of a session, every rule of its log that names
    a pool other than [console] comes after the statement that declares
    that pool. *)
Theorem X4_pool_before_rule (host : Host) (build_file build_dir : string)
    (no_cwd_check : bool) (cs : list call) :
  let n := (run_calls host cs
              (Ninju__init__ host build_file build_dir no_cwd_check).2).2 in
  ∀ i r p, _seq n !! i = Some (_NBuildRule r) → br_pool r = Some p →
    p = "console"
    ∨ ∃ j depth, (j < i)%nat ∧ _seq n !! j = Some (_NPool p depth).
Proof.
  intros n.
  destruct (session_inv_reachable host build_file build_dir no_cwd_check cs)
    as (_ & _ & Hp).
  exact Hp.
Qed.

Lemma X4_pool_before_rule_witness :
  "pool_2" = "console"
  ∨ ∃ j depth, (j < 6)%nat
      ∧ _seq (run_calls host0
                [c_cmd "link" "cc" None None None false (PInt 2) false
                       None None None]
                (Ninju__init__ host0 "build.ninja" ".builddir" true).2).2
        !! j
        = Some (_NPool "pool_2" depth).
Proof.
  apply (X4_pool_before_rule host0 "build.ninja" ".builddir" true
           [c_cmd "link" "cc" None None None false (PInt 2) false
                  None None None]
           6%nat
           (mk_build_rule "link" "cc" None None None false (Some "pool_2")
              false None None None "/usr/bin/cc")
           "pool_2"); by vm_compute.
Defined.

(** ** The command registries *)

Lemma cmd_valid_eq host name executable args description depfile generator
    pool restat rspfile rspfile_content deps n :
  pool_valid pool = true →
  ∃ r n1,
    pool_outcome n pool r n1
    ∧ cmd host name executable args description depfile generator pool
          restat rspfile rspfile_content deps n
      = (Ok tt,
         set_cmds
           (<[name := mk_build_rule name executable args description depfile
                        generator r restat rspfile rspfile_content deps
                        (resolve_executable host executable)]> (_cmds n1))
           (set_seq (fun s => s ++
              [_NBuildRule
                 (mk_build_rule name executable args description depfile
                    generator r restat rspfile rspfile_content deps
                    (resolve_executable host executable))]) n1)).
Proof.
  intros Hv.
  destruct (_setup_pool_outcome pool n) as [[Hv' _]|(r & n1 & Hr & Ho)];
    [congruence|].
  exists r, n1. split; [done|]. by erewrite cmd_eq by exact Hr.
Qed.

Lemma pool_outcome_frame n pool r n1 :
  pool_outcome n pool r n1 →
  _cmds n1 = _cmds n ∧ _exec_cmds n1 = _exec_cmds n
  ∧ _name_count n1 = _name_count n
  ∧ ∃ l, _seq n1 = _seq n ++ l.
Proof.
  intros [[-> _]|(name & _ & _ & ->)]; simpl.
  - repeat split. exists []. by rewrite app_nil_r.
  - repeat split. by eexists.
Qed.

Lemma _Target_call_missing host t name inputs vars n :
  _Target_attribute host name = false → _exec_cmds n !! name = None →
  _Target_call host t name inputs vars n = (Raise AttributeError, n).
Proof.
  intros Ha Hnone. unfold _Target_call. rewrite Ha.
  unfold _Target_getattr, mbind, M_bind, bind, gets. simpl.
  by rewrite Hnone.
Qed.

(** X5. Registering a build rule with an accepted pool binds the name to
    the new rule, whose executable path is the resolved executable, and
    leaves every other build command and all exec commands as they were.
    From then on the name, unless a [_Files] has it as attribute already,
    calls the command of the new rule on a [_Files].  The two registries
    are separate: if no exec rule has the name, and a [_Target] has no
    attribute of that name, calling it on a [_Target] still raises
    [AttributeError], and changes nothing. *)
Theorem X5_cmd_registers (host : Host) (name executable : string)
    (args description depfile : option string) (generator : bool)
    (pool : pyval) (restat : bool)
    (rspfile rspfile_content deps : option string) (n : Ninju) :
  pool_valid pool = true →
  let n' := (cmd host name executable args description depfile generator
                 pool restat rspfile rspfile_content deps n).2 in
  (∃ r, _cmds n' !! name = Some r
        ∧ br_name r = name ∧ br_executable r = executable
        ∧ br_executable_path r
          = match which host executable with
            | Some path => path
            | None => executable
            end
        ∧ (_Files_attribute host name = false →
           ∀ p outputs implicit order_only vars io,
             _Files_call host p name outputs implicit order_only vars io n'
             = build_fn r (PList p) outputs implicit order_only vars io n'))
  ∧ (∀ other, other ≠ name → _cmds n' !! other = _cmds n !! other)
  ∧ _exec_cmds n' = _exec_cmds n
  ∧ (_Target_attribute host name = false → _exec_cmds n !! name = None →
     ∀ t inputs vars,
       _Target_call host t name inputs vars n' = (Raise AttributeError, n')).
Proof.
  intros Hv n'.
  destruct (cmd_valid_eq host name executable args description depfile
              generator pool restat rspfile rspfile_content deps n Hv)
    as (r & n1 & Ho & Hcmd).
  destruct (pool_outcome_frame _ _ _ _ Ho) as (Hc & He & _ & _).
  assert (Hlook : ∃ r0, _cmds n' !! name = Some r0
            ∧ br_name r0 = name ∧ br_executable r0 = executable
            ∧ br_executable_path r0 = resolve_executable host executable).
  { unfold n'. rewrite Hcmd. simpl. eexists.
    rewrite lookup_insert_eq. by repeat split. }
  assert (Hexec : _exec_cmds n' = _exec_cmds n).
  { unfold n'. rewrite Hcmd. simpl. by rewrite He. }
  split; [|split; [|split]].
  - destruct Hlook as (r0 & Hr0 & ? & ? & ?). exists r0.
    repeat split; try done.
    intros Hattr p outputs implicit order_only vars io.
    by apply _Files_call_eq.
  - intros other Hne. unfold n'. rewrite Hcmd. simpl.
    by rewrite lookup_insert_ne, Hc.
  - done.
  - intros Hattr Hnone t inputs vars.
    apply _Target_call_missing; [done|]. by rewrite Hexec.
Qed.

Lemma X5_cmd_registers_witness :
  let n' := (cmd host0 "link" "cc" None None None false (PInt 2) false
                 None None None session0).2 in
  (∃ r, _cmds n' !! "link" = Some r
        ∧ br_name r = "link" ∧ br_executable r = "cc"
        ∧ br_executable_path r = "/usr/bin/cc"
        ∧ (_Files_attribute host0 "link" = false →
           ∀ p outputs implicit order_only vars io,
             _Files_call host0 p "link" outputs implicit order_only vars io
                         n'
             = build_fn r (PList p) outputs implicit order_only vars io n'))
  ∧ (∀ other, other ≠ "link" → _cmds n' !! other = _cmds session0 !! other)
  ∧ _exec_cmds n' = _exec_cmds session0
  ∧ (_Target_attribute host0 "link" = false →
     _exec_cmds session0 !! "link" = None →
     ∀ t inputs vars,
       _Target_call host0 t "link" inputs vars n'
       = (Raise AttributeError, n')).
Proof.
  apply (X5_cmd_registers host0 "link" "cc" None None None false (PInt 2)
           false None None None session0).
  reflexivity.
Defined.

(** X6. Registering a build rule under a name that has one already does
    not replace the first rule in the log: the log ends up with two rule
    statements of that name, in the order of the calls, and the name is
    bound to the second. *)
Theorem X6_cmd_twice (host : Host) (name exe1 exe2 : string)
    (args1 args2 : option string) (pool1 pool2 : pyval) (n : Ninju) :
  pool_valid pool1 = true → pool_valid pool2 = true →
  let n' := (run_calls host
               [c_cmd name exe1 args1 None None false pool1 false
                      None None None;
                c_cmd name exe2 args2 None None false pool2 false
                      None None None] n).2 in
  ∃ r1 r2 i j,
    (length (_seq n) ≤ i)%nat ∧ (i < j)%nat
    ∧ _seq n' !! i = Some (_NBuildRule r1)
    ∧ _seq n' !! j = Some (_NBuildRule r2)
    ∧ br_name r1 = name ∧ br_name r2 = name
    ∧ br_executable r1 = exe1 ∧ br_executable r2 = exe2
    ∧ _cmds n' !! name = Some r2.
Proof.
  intros Hv1 Hv2 n'.
  destruct (cmd_valid_eq host name exe1 args1 None None false pool1 false
              None None None n Hv1) as (p1 & n1 & Ho1 & Hcmd1).
  destruct (pool_outcome_frame _ _ _ _ Ho1) as (_ & _ & _ & l1 & Hl1).
  set (r1 := mk_build_rule name exe1 args1 None None false p1 false None
               None None (resolve_executable host exe1)) in *.
  set (m1 := set_cmds (<[name := r1]> (_cmds n1))
               (set_seq (fun s => s ++ [_NBuildRule r1]) n1)) in *.
  destruct (cmd_valid_eq host name exe2 args2 None None false pool2 false
              None None None m1 Hv2) as (p2 & n2 & Ho2 & Hcmd2).
  destruct (pool_outcome_frame _ _ _ _ Ho2) as (_ & _ & _ & l2 & Hl2).
  set (r2 := mk_build_rule name exe2 args2 None None false p2 false None
               None None (resolve_executable host exe2)) in *.
  assert (Hn' : n' = set_cmds (<[name := r2]> (_cmds n2))
                       (set_seq (fun s => s ++ [_NBuildRule r2]) n2)).
  { unfold n'. cbn [run_calls do_call].
    unfold mbind, M_bind, bind. rewrite Hcmd1. simpl.
    fold m1. by rewrite Hcmd2. }
  assert (Hseq : _seq n' = _seq n ++ l1 ++ [_NBuildRule r1] ++ l2
                           ++ [_NBuildRule r2]).
  { rewrite Hn'. simpl. rewrite Hl2. simpl. rewrite Hl1.
    by rewrite <-!app_assoc. }
  exists r1, r2, (length (_seq n ++ l1)),
         (length (_seq n ++ l1 ++ [_NBuildRule r1] ++ l2)).
  split; [rewrite length_app; lia|].
  split; [rewrite !length_app; simpl; lia|].
  split.
  { rewrite Hseq, app_assoc.
    by apply (list_lookup_middle (_seq n ++ l1) (l2 ++ [_NBuildRule r2])). }
  split.
  { rewrite Hseq.
    replace (_seq n ++ l1 ++ [_NBuildRule r1] ++ l2 ++ [_NBuildRule r2])
      with ((_seq n ++ l1 ++ [_NBuildRule r1] ++ l2) ++ [_NBuildRule r2])
      by by rewrite <-!app_assoc.
    by apply list_lookup_middle. }
  repeat split; try done.
  rewrite Hn'. simpl. by rewrite lookup_insert_eq.
Qed.

Lemma X6_cmd_twice_witness :
  let n' := (run_calls host0
               [c_cmd "cc" "gcc" None None None false PNone false
                      None None None;
                c_cmd "cc" "clang" (Some "-c") None None false (PInt 2)
                      false None None None] session0).2 in
  ∃ r1 r2 i j,
    (length (_seq session0) ≤ i)%nat ∧ (i < j)%nat
    ∧ _seq n' !! i = Some (_NBuildRule r1)
    ∧ _seq n' !! j = Some (_NBuildRule r2)
    ∧ br_name r1 = "cc" ∧ br_name r2 = "cc"
    ∧ br_executable r1 = "gcc" ∧ br_executable r2 = "clang"
    ∧ _cmds n' !! "cc" = Some r2.
Proof.
  apply (X6_cmd_twice host0 "cc" "gcc" "clang" None (Some "-c") PNone
           (PInt 2) session0); reflexivity.
Defined.

(** ** Generated names across a session *)

Lemma generated_names_plain c k ext : Forall plain (generated_names c k ext).
Proof.
  unfold generated_names. apply Forall_forall. intros x Hx.
  apply list_elem_of_In, in_map_iff in Hx as (i & <- & _). done.
Qed.

Lemma generated_names_elem c k ext x :
  x ∈ generated_names c k ext →
  ∃ i, c < i ≤ c + Z.of_nat k ∧ x = PStr (generated_name i ext).
Proof.
  unfold generated_names. intros Hx.
  apply list_elem_of_In, in_map_iff in Hx as (i & <- & Hi).
  apply in_seq in Hi. exists (c + Z.of_nat i). split; [lia|done].
Qed.

Lemma _normalize_outputs_generates outputs ext n :
  generates outputs = true →
  ∃ k, _normalize_outputs outputs ext n
       = (Ok (generated_names (_name_count n) k ext),
          set_name_count (_name_count n + Z.of_nat k) n).
Proof.
  unfold generates, _normalize_outputs. intros Hg.
  destruct (negb (py_truth outputs)) eqn:Hf.
  { exists 1%nat. by erewrite bind_Ok by apply _gen_name_eq. }
  destruct (is_int outputs) as [z|]; [|done].
  exists (Z.to_nat z). by rewrite gen_names_eq.
Qed.

Lemma call_effect_count host n c res n' :
  call_effect host n c res n' → _name_count n ≤ _name_count n'.
Proof.
  intros Heff. destruct Heff; simpl; try lia.
  match goal with H : pool_outcome _ _ _ _ |- _ =>
    destruct (pool_outcome_frame _ _ _ _ H) as (_ & _ & -> & _) end.
  lia.
Qed.

Lemma run_calls_count host cs : ∀ n,
  _name_count n ≤ _name_count (run_calls host cs n).2.
Proof.
  induction cs as [|c cs IH]; intros n; simpl; [lia|].
  pose proof (call_effect_count host n c _ _ (do_call_effect host c n)) as Hc.
  unfold mbind, M_bind, bind.
  destruct (do_call host c n) as [[v|e] n']; simpl in *; [|done].
  specialize (IH n'). lia.
Qed.

(** ** Names issued across a session *)

Lemma _normalize_outputs_given outputs ext n :
  generates outputs = false →
  ∃ outs, _normalize_outputs outputs ext n = (Ok outs, n).
Proof.
  unfold generates, _normalize_outputs. intros Hg.
  destruct (is_int outputs) as [z|]; [done|].
  apply negb_false_iff in Hg. rewrite Hg. simpl.
  destruct outputs; by eexists.
Qed.

Lemma generated_names_app c k1 k2 ext :
  generated_names c (k1 + k2) ext
  = generated_names c k1 ext
    ++ generated_names (c + Z.of_nat k1) k2 ext.
Proof.
  revert c. induction k1 as [|k1 IH]; intros c; cbn [Nat.add].
  - by rewrite Z.add_0_r.
  - rewrite !generated_names_S, IH.
    replace (c + 1 + Z.of_nat k1) with (c + Z.of_nat (S k1)) by lia.
    reflexivity.
Qed.

Lemma generated_names_lookup c k ext i x :
  generated_names c k ext !! i = Some x →
  x = PStr (generated_name (c + Z.of_nat (S i)) ext).
Proof.
  unfold generated_names. rewrite list_lookup_fmap. intros H.
  destruct (seq 1 k !! i) as [j|] eqn:Hj; [|done].
  apply lookup_seq in Hj as [-> _]. by injection H as <-.
Qed.

Lemma normalized_names outputs ext n outs k :
  _normalize_outputs outputs ext n
  = (Ok outs, set_name_count (_name_count n + Z.of_nat k) n) →
  (if generates outputs then outs else [])
  = generated_names (_name_count n) k ext.
Proof.
  intros Hnorm. destruct (generates outputs) eqn:Hg.
  - destruct (_normalize_outputs_generates outputs ext n Hg) as [k' Hk'].
    rewrite Hk' in Hnorm. injection Hnorm as <- Hn.
    by replace k' with k by lia.
  - destruct (_normalize_outputs_given outputs ext n Hg) as [outs' Ho].
    rewrite Ho in Hnorm. injection Hnorm as _ Hn.
    apply (f_equal _name_count) in Hn. simpl in Hn.
    by replace k with 0%nat by lia.
Qed.

Lemma issued_replicate c k ext :
  map PStr (issued c (replicate k ext)) = generated_names c k ext.
Proof.
  revert c. induction k as [|k IH]; intros c; [done|].
  cbn [replicate issued map]. by rewrite generated_names_S, IH.
Qed.

(** The names [_normalize_outputs] generates are those that as many calls
    of [_gen_name] return. *)
Lemma _normalize_outputs_issue outputs ext n :
  generates outputs = true →
  ∃ k, _normalize_outputs outputs ext n
       = (names ← issue (replicate k ext); mret (map PStr names)) n.
Proof.
  intros Hg.
  destruct (_normalize_outputs_generates outputs ext n Hg) as [k Hk].
  exists k. rewrite Hk. erewrite bind_Ok by apply issue_eq.
  by rewrite issued_replicate, length_replicate.
Qed.

(** A call issues the names that carry the counter values after the
    session's, and moves the counter past them. *)
Lemma names_issued_eq host c n :
  ∃ k, names_issued host c n = generated_names (_name_count n) k "tmp"
       ∧ _name_count (do_call host c n).2 = _name_count n + Z.of_nat k.
Proof.
  pose proof (do_call_effect host c n) as Heff.
  unfold names_issued, appended.
  destruct (do_call host c n) as [res n']. simpl in *.
  destruct Heff;
    try (exists 0%nat; rewrite ?drop_all; simpl;
         by rewrite ?Tauto.if_same, Z.add_0_r).
  - exists 0%nat. split; [done|]. simpl.
    match goal with H : pool_outcome _ _ _ _ |- _ =>
      destruct (pool_outcome_frame _ _ _ _ H) as (_ & _ & -> & _) end.
    lia.
  - exists k. simpl. rewrite drop_app_length. simpl. rewrite app_nil_r.
    split; [|done]. by eapply normalized_names.
  - exists k. simpl. rewrite drop_app_length. simpl. rewrite app_nil_r.
    split; [|done]. by eapply normalized_names.
  - exists 0%nat. rewrite Z.add_0_r. split; [|done].
    by destruct c.
Qed.

Lemma script_issued_eq host cs : ∀ n,
  ∃ k, script_issued host cs n = generated_names (_name_count n) k "tmp"
       ∧ _name_count (run_calls host cs n).2 = _name_count n + Z.of_nat k.
Proof.
  induction cs as [|c cs IH]; intros n; simpl.
  - exists 0%nat. split; [done|]. simpl. lia.
  - destruct (names_issued_eq host c n) as (k1 & Hn1 & Hc1).
    unfold mbind, M_bind, bind.
    destruct (do_call host c n) as [[v|e] n']; simpl in *.
    + destruct (IH n') as (k2 & Hn2 & Hc2).
      exists (k1 + k2)%nat.
      rewrite generated_names_app, Hn1, Hn2, Hc2, Hc1. split; [done|lia].
    + by exists k1.
Qed.

(** C7. The counter of a new session is 0, and a call of [_gen_name] adds
    one to it and returns [${builddir}/.ninju_<counter>.<ext>] for the new
    value; so the k-th name of a run of [_gen_name] calls on a new session
    carries counter value k, and the names are pairwise distinct.  The
    same holds across a whole session, whatever is called in between.
    [_normalize_outputs] either returns the names of a run of [_gen_name]
    calls, or returns what it was given and leaves the session alone; any
    call of the interface moves the counter by the number of names it
    issues, and leaves it alone if it issues none; so after any script
    the counter is the number of names issued so far, the k-th of them is
    [${builddir}/.ninju_<k>.tmp], and no two are equal. *)
Theorem C7_generated_names (host : Host) (build_file build_dir : string)
    (no_cwd_check : bool) (exts : list string) (cs : list call) :
  let n0 := (Ninju__init__ host build_file build_dir no_cwd_check).2 in
  _name_count n0 = 0
  ∧ (∀ ext n, _gen_name ext n
       = (Ok ("${builddir}/.ninju_" +:+ pretty (_name_count n + 1)
              +:+ "." +:+ ext),
          set_name_count (_name_count n + 1) n))
  ∧ (∃ names,
      (issue exts n0).1 = Ok names
      ∧ length names = length exts
      ∧ (∀ k ext, exts !! k = Some ext →
           names !! k
           = Some ("${builddir}/.ninju_" +:+ pretty (Z.of_nat (S k))
                   +:+ "." +:+ ext))
      ∧ NoDup names)
  ∧ (∀ outputs ext n,
       if generates outputs
       then ∃ k, _normalize_outputs outputs ext n
                 = (names ← issue (replicate k ext);
                    mret (map PStr names)) n
       else ∃ outs, _normalize_outputs outputs ext n = (Ok outs, n))
  ∧ (∀ c n,
       _name_count (do_call host c n).2
       = _name_count n + Z.of_nat (length (names_issued host c n)))
  ∧ (let all := script_issued host cs n0 in
     _name_count (run_calls host cs n0).2 = Z.of_nat (length all)
     ∧ (∀ k x, all !! k = Some x →
          x = PStr ("${builddir}/.ninju_" +:+ pretty (Z.of_nat (S k))
                    +:+ ".tmp"))
     ∧ NoDup all).
Proof.
  intros n0.
  assert (H0 : _name_count n0 = 0) by apply Ninju__init__name_count.
  split; [done|]. split; [done|]. split; [|split; [|split]].
  - exists (issued 0 exts). rewrite issue_eq, H0. simpl.
    split; [done|]. split; [apply issued_length|].
    split; [|apply issued_NoDup].
    intros k ext Hk. by rewrite (issued_lookup exts 0 k ext Hk).
  - intros outputs ext n. destruct (generates outputs) eqn:Hg.
    + by apply _normalize_outputs_issue.
    + by apply _normalize_outputs_given.
  - intros c n. destruct (names_issued_eq host c n) as (k & -> & ->).
    by rewrite generated_names_length.
  - destruct (script_issued_eq host cs n0) as (k & Hall & Hcount).
    cbv zeta. rewrite Hall, Hcount, H0, generated_names_length.
    split; [done|]. split; [|apply generated_names_NoDup].
    intros i x Hx. by apply generated_names_lookup in Hx as ->.
Qed.

(** X7. Two build commands of one session that have their outputs
    generated (outputs omitted, falsy, or an integer) never share an
    output, whatever the session does between them: no name of the
    reference the first returns is a name of the reference the second
    returns. *)
Theorem X7_generated_outputs_disjoint (host : Host) (r1 r2 : build_rule)
    (in1 in2 out1 out2 imp1 imp2 oo1 oo2 : pyval) (v1 v2 : variables)
    (io1 io2 : pyval) (cs : list call) (n n1 n2 : Ninju)
    (f1 f2 : list pyval) :
  generates out1 = true → generates out2 = true →
  build_fn r1 in1 out1 imp1 oo1 v1 io1 n = (Ok (PFiles f1), n1) →
  build_fn r2 in2 out2 imp2 oo2 v2 io2 (run_calls host cs n1).2
  = (Ok (PFiles f2), n2) →
  Forall (fun x => x ∉ f2) f1.
Proof.
  intros Hg1 Hg2 Hb1 Hb2. apply Forall_forall. intros x Hx1 Hx2.
  destruct (_normalize_outputs_generates out1 "tmp" n Hg1) as [k1 Hn1].
  destruct (_normalize_outputs_generates out2 "tmp" (run_calls host cs n1).2
              Hg2) as [k2 Hn2].
  rewrite (build_fn_eq _ _ _ _ _ _ _ _ _ _ Hn1) in Hb1.
  rewrite (build_fn_eq _ _ _ _ _ _ _ _ _ _ Hn2) in Hb2.
  rewrite flat_map_splice_plain in Hb1 by apply generated_names_plain.
  rewrite flat_map_splice_plain in Hb2 by apply generated_names_plain.
  injection Hb1 as <- <-. injection Hb2 as <- _.
  apply generated_names_elem in Hx1 as (i & Hi & ->).
  apply generated_names_elem in Hx2 as (j & Hj & Heq).
  apply PStr_inj, generated_name_inj in Heq. subst j.
  pose proof (run_calls_count host cs
    (set_seq (fun s => s ++ [_NBuild (mk_build_edge
       (generated_names (_name_count n) k1 "tmp") (br_name r1) in1
       (PFiles (PStr (br_executable_path r1) :: splice imp1)) oo1 v1 io1)])
       (set_name_count (_name_count n + Z.of_nat k1) n))) as Hmono.
  simpl in Hmono. lia.
Qed.

Lemma X7_generated_outputs_disjoint_witness :
  Forall (fun x => x ∉ [PStr "${builddir}/.ninju_2.tmp";
                        PStr "${builddir}/.ninju_3.tmp"])
         [PStr "${builddir}/.ninju_1.tmp"].
Proof.
  apply (X7_generated_outputs_disjoint host0 compile0 compile0
           (PList [PStr "a.c"]) (PList [PStr "b.c"]) PNone (PInt 2)
           PNone PNone PNone PNone None None PNone PNone
           [c_var "cflags" "-O2"] session1
           (build_fn compile0 (PList [PStr "a.c"]) PNone PNone PNone None
                     PNone session1).2
           (build_fn compile0 (PList [PStr "b.c"]) (PInt 2) PNone PNone None
              PNone
              (run_calls host0 [c_var "cflags" "-O2"]
                 (build_fn compile0 (PList [PStr "a.c"]) PNone PNone PNone
                    None PNone session1).2).2).2);
    by vm_compute.
Defined.

(** ** Creating a session *)

(** X8. [Ninju(...)] exits with status 1 exactly when the directory check
    is not bypassed and the directory of the calling script is not the
    working directory, and then nothing has been appended or registered.
    Otherwise it never raises, and leaves the three variables, the
    [configure] rule, marked as a generator and bound to the calling
    script, and the edge that produces the build file from no input, with
    the script and the two modules as implicit inputs; the name counter
    is untouched. *)
Theorem X8_session_bootstrap (host : Host) (build_file build_dir : string)
    (no_cwd_check : bool) :
  let guard := negb no_cwd_check
               && negb (String.eqb (caller_dir host) (getcwd host)) in
  let path := resolve_executable host (caller_file host) in
  let configure :=
    mk_build_rule "configure" (caller_file host) None
      (Some "Regenerate ninja build file") None true None false None None
      None path in
  Ninju__init__ host build_file build_dir no_cwd_check
  = if guard then (Raise (SystemExit 1), blank host build_file build_dir)
    else
      (Ok tt,
       mk_Ninju build_file build_dir (caller_file host) (caller_dir host)
         [_NVar "ninja_required_version" "1.7" 0;
          _NVar "root" "." 0;
          _NVar "builddir" (os_path_join "${root}" [build_dir]) 0;
          _NBuildRule configure;
          _NBuild (mk_build_edge
                     [PStr (os_path_join "${root}" [build_file])]
                     "configure" (PList [])
                     (PFiles [PStr path; PStr (NINJU_MODULE_PATH host);
                              PStr (NINJA_SYNTAX_MODULE_PATH host)])
                     PNone None PNone)]
         0 {["configure" := configure]} ∅ ∅).
Proof.
  intros guard path configure. unfold Ninju__init__, bootstrap.
  unfold mbind at 1, M_bind at 1, bind at 1, gets at 1; simpl.
  fold guard. destruct guard; [reflexivity|].
  unfold mbind, M_bind, bind; simpl.
  unfold _Files_call. change (_Files_attribute host "configure") with false.
  cbv iota.
  rewrite (_Files_getattr_eq _ _ configure) by apply lookup_insert_eq.
  by rewrite insert_empty.
Qed.

(** ** Calls that raise *)

(** X9. A call that raises leaves the session exactly as it was: a refused
    pool, an exec command with a target that is not single and a command
    name that is not registered append nothing, register nothing and
    generate no name. *)
Theorem X9_raise_changes_nothing (host : Host) (c : call) (n : Ninju)
    (e : exn) :
  (do_call host c n).1 = Raise e → (do_call host c n).2 = n.
Proof.
  pose proof (do_call_effect host c n) as Heff. revert Heff.
  generalize (do_call host c n).2 as n'.
  generalize (do_call host c n).1 as res.
  intros res n' Heff Hres. destruct Heff; (discriminate || reflexivity).
Qed.

Lemma X9_raise_changes_nothing_witness :
  (do_call host0 (c_cmd "link" "cc" None None None false (PInt 0) false
                        None None None) session1).2 = session1.
Proof.
  apply (X9_raise_changes_nothing host0 _ session1 pool_error).
  reflexivity.
Defined.

(** ** Writing tasks *)

Lemma str_each_Files host l :
  str_each host (PFiles l) = Ok (map (str host) l).
Proof. reflexivity. Qed.




Lemma _as_string_list_listable host v :
  listable v = true → ∃ r, _as_string_list host v = Ok r.
Proof. destruct v; simpl; try done; by eexists. Qed.

Lemma _as_string_list_not_listable host v :
  listable v = false → _as_string_list host v = Raise TypeError.
Proof. by destruct v. Qed.

(** X11. Writing a build edge fails in two ways only.  An edge without
    outputs raises [GeneratorError('no output')], whatever its other
    fields.  An edge with outputs raises [TypeError] when one of its
    inputs, implicit inputs, order-only inputs or implicit outputs is
    neither [None] nor iterable, and is written otherwise, with as many
    outputs as the edge has. *)
Theorem X11_edge_write (host : Host) (b : build_edge) :
  (b_outputs b = [] →
   write host (_NBuild b) = Raise (GeneratorError "no output"))
  ∧ (b_outputs b ≠ [] →
     if listable (b_inputs b) && listable (b_implicit b)
        && listable (b_order_only b) && listable (b_implicit_outputs b)
     then ∃ ins imp oo io,
            write host (_NBuild b)
            = Ok (w_build (PList (map PStr (map (str host) (b_outputs b))))
                          (b_rule b) ins imp oo (b_variables b) io)
     else write host (_NBuild b) = Raise TypeError).
Proof.
  split.
  - intros H. simpl. unfold _NBuild_write. by rewrite H.
  - intros H. simpl. unfold _NBuild_write.
    destruct (b_outputs b) as [|o outs]; [done|].
    destruct (listable (b_inputs b)) eqn:H1; simpl.
    2:{ by rewrite _as_string_list_not_listable. }
    destruct (_as_string_list_listable host _ H1) as [ins ->].
    destruct (listable (b_implicit b)) eqn:H2; simpl.
    2:{ by rewrite _as_string_list_not_listable. }
    destruct (_as_string_list_listable host _ H2) as [imp ->].
    destruct (listable (b_order_only b)) eqn:H3; simpl.
    2:{ by rewrite _as_string_list_not_listable. }
    destruct (_as_string_list_listable host _ H3) as [oo ->].
    destruct (listable (b_implicit_outputs b)) eqn:H4; simpl.
    2:{ by rewrite _as_string_list_not_listable. }
    destruct (_as_string_list_listable host _ H4) as [io ->].
    by eexists _, _, _, _.
Qed.

(** ** Sessions that generation can write *)










(** ** The calls the writer receives *)

Lemma generate_loop_trace host newline tasks : ∀ w,
  (generate_loop host tasks newline w).2
  = w ++ flat_map (fun c => if newline then [c; w_newline] else [c])
                  (written host tasks).
Proof.
  induction tasks as [|t tasks IH]; intros w; simpl.
  - by rewrite app_nil_r.
  - destruct (write host t) as [c|e]; simpl; [|by rewrite app_nil_r].
    rewrite IH. destruct newline; by rewrite <-app_assoc.
Qed.

(** X13. The writer receives the header comment and a blank line, then the
    statements of the tasks that could be written, in the order of the
    log, each followed by a blank line when [newline] is set and by
    nothing otherwise.  [generate] closes the writer after a generation
    that succeeded; when a task raises, the exception comes out and the
    writer is not closed. *)
Theorem X13_writer_calls (host : Host) (n : Ninju) (newline : bool) :
  (_generate host n newline).2
  = [w_comment
       "This file is generated by Ninju v0.1.0 (https://github.com/frm-adiputra/Ninju)";
     w_newline]
    ++ flat_map (fun c => if newline then [c; w_newline] else [c])
                (written host (_seq n))
  ∧ (generate host n newline).1 = (_generate host n newline).1
  ∧ (generate host n newline).2
    = (_generate host n newline).2
      ++ match (_generate host n newline).1 with
         | Ok _ => [w_close]
         | Raise _ => []
         end.
Proof.
  split; [apply generate_loop_trace|].
  unfold generate.
  destruct (_generate host n newline) as [[[]|e] w]; simpl; [done|].
  by rewrite app_nil_r.
Qed.

(** ** References *)

(** X14. References compose by concatenation, in order: the reference
    built from two argument lists one after the other has the tokens of
    the first followed by those of the second; a reference built from
    references has their tokens, so wrapping a reference again changes
    nothing; and a reference built from a target has its name as only
    token. *)
Theorem X14_files_compose (a b : list pyval) (t : pyval) :
  (∃ ta tb, _Files a = PFiles ta ∧ _Files b = PFiles tb
            ∧ _Files (a ++ b) = PFiles (ta ++ tb)
            ∧ _Files [_Files a; _Files b] = PFiles (ta ++ tb)
            ∧ _Files [_Files a] = _Files a)
  ∧ _Files [_Target t] = PFiles [t].
Proof.
  split; [|done].
  exists (flat_map splice a), (flat_map splice b).
  rewrite !_Files_flat_map. simpl. rewrite !app_nil_r.
  repeat split. by rewrite flat_map_app.
Qed.

(** ** Exec commands *)

(** X15. A target that the exec command accepts, other than an integer
    that is neither 0 nor 1, becomes exactly one output of its edge, and
    the edge is the only statement the call appends. *)
Theorem X15_exec_one_output (r : exec_rule) (t inputs : pyval)
    (vars : variables) (n : Ninju) :
  _is_single_output t = true →
  (∀ z, t = PInt z → z = 0 ∨ z = 1) →
  ∃ o n1 v,
    exec_fn r t inputs vars n
    = (Ok v, set_seq (fun s => s ++
         [_NBuild (mk_build_edge [o] (er_name r) inputs PNone PNone vars
                     PNone)]) n1)
    ∧ _seq n1 = _seq n.
Proof.
  intros Hs Hint.
  destruct (_normalize_outputs_count t "tmp" n) as (outs & k & Hnorm).
  assert (Hone : ∃ o, outs = [o]).
  { revert Hnorm. unfold _normalize_outputs.
    destruct (negb (py_truth t)) eqn:Hf.
    { erewrite bind_Ok by apply _gen_name_eq. intros [= <- _]. by eexists. }
    apply negb_false_iff in Hf.
    destruct t as [|[]|z| |l|l|l|]; simpl in *; try done;
      try (intros [= <- _]; by eexists).
    - destruct (Hint z eq_refl) as [->| ->]; [done|].
      intros [= <- _]. by eexists.
    - destruct l as [|x [|y l]]; try done. intros [= <- _]. by eexists.
    - destruct l as [|x [|y l]]; try done. intros [= <- _]. by eexists. }
  destruct Hone as [o ->].
  eexists o, _, _. split; [by apply exec_fn_single|done].
Qed.

Lemma X15_exec_one_output_witness :
  ∃ o n1 v,
    exec_fn run0 (PTuple [PStr "deploy"]) PNone None session1
    = (Ok v, set_seq (fun s => s ++
         [_NBuild (mk_build_edge [o] "run" PNone PNone PNone None PNone)])
         n1)
    ∧ _seq n1 = _seq session1.
Proof.
  apply (X15_exec_one_output run0 (PTuple [PStr "deploy"]) PNone None
           session1); [reflexivity|].
  intros z Hz. discriminate Hz.
Defined.

(** X16. The one-target check of an exec command does not see integers: a
    positive integer [N] is accepted as target, and the edge gets [N]
    generated outputs; a negative integer is accepted too, and the edge
    gets no output at all, which generation will refuse. *)
Theorem X16_exec_integer_target (host : Host) (r : exec_rule)
    (inputs : pyval) (vars : variables) (n : Ninju) (N : positive) :
  (∃ outs,
     exec_fn r (PInt (Z.pos N)) inputs vars n
     = (Ok (PFiles [PInt (Z.pos N)]),
        set_seq (fun s => s ++
          [_NBuild (mk_build_edge outs (er_name r) inputs PNone PNone vars
                      PNone)])
          (set_name_count (_name_count n + Z.pos N) n))
     ∧ length outs = Pos.to_nat N ∧ NoDup outs)
  ∧ exec_fn r (PInt (Z.neg N)) inputs vars n
    = (Ok (PFiles [PInt (Z.neg N)]),
       set_seq (fun s => s ++
         [_NBuild (mk_build_edge [] (er_name r) inputs PNone PNone vars
                     PNone)]) n)
  ∧ write host (_NBuild (mk_build_edge [] (er_name r) inputs PNone PNone
                           vars PNone))
    = Raise (GeneratorError "no output").
Proof.
  split; [|split; [|done]].
  - exists (generated_names (_name_count n) (Pos.to_nat N) "tmp").
    split; [|split; [apply generated_names_length
                    |apply generated_names_NoDup]].
    erewrite exec_fn_single; [|done|].
    2:{ unfold _normalize_outputs. simpl. apply gen_names_eq. }
    rewrite Z2Nat.id by lia. by rewrite Z2Nat.inj_pos.
  - by erewrite exec_fn_single.
Qed.

(** ** Chaining build commands *)

(** X17. When the reference a build command returns is used to call a
    second build command, as in [files(p).first().second()], and neither
    name is an attribute a [_Files] has already, the log gets the two
    edges in that order, and the inputs of the second edge are the tokens
    of the reference the first returned: the outputs of the first edge,
    flattened.  With both outputs omitted, the first edge produces the
    next generated name and the second the one after it. *)
Theorem X17_chained_commands (host : Host) (n : Ninju)
    (first second : string) (r1 r2 : build_rule) (p : list pyval)
    (out1 out2 : pyval) :
  _Files_attribute host first = false →
  _Files_attribute host second = false →
  _cmds n !! first = Some r1 → _cmds n !! second = Some r2 →
  let chain : M pyval :=
    res ← _Files_call host p first out1 PNone PNone None PNone;
    match res with
    | PFiles tokens =>
        _Files_call host tokens second out2 PNone PNone None PNone
    | _ => raise AttributeError
    end in
  ∃ outs1 outs2,
    (chain n).1 = Ok (PFiles (flat_map splice outs2))
    ∧ _seq (chain n).2
      = _seq n ++
        [_NBuild (mk_build_edge outs1 (br_name r1) (PList p)
                    (PFiles [PStr (br_executable_path r1)]) PNone None
                    PNone);
         _NBuild (mk_build_edge outs2 (br_name r2)
                    (PList (flat_map splice outs1))
                    (PFiles [PStr (br_executable_path r2)]) PNone None
                    PNone)]
    ∧ (out1 = PNone → out2 = PNone →
       outs1 = [PStr (generated_name (_name_count n + 1) "tmp")]
       ∧ outs2 = [PStr (generated_name (_name_count n + 2) "tmp")]).
Proof.
  intros Ha1 Ha2 H1 H2 chain.
  destruct (_normalize_outputs_count out1 "tmp" n) as (outs1 & k1 & Hn1).
  set (n1 := set_seq (fun s => s ++
         [_NBuild (mk_build_edge outs1 (br_name r1) (PList p)
                     (PFiles (PStr (br_executable_path r1) :: splice PNone))
                     PNone None PNone)])
         (set_name_count (_name_count n + Z.of_nat k1) n)).
  destruct (_normalize_outputs_count out2 "tmp" n1) as (outs2 & k2 & Hn2).
  assert (Hfirst : _Files_call host p first out1 PNone PNone None PNone n
                   = (Ok (PFiles (flat_map splice outs1)), n1)).
  { rewrite (_Files_call_eq _ _ _ r1) by done. by erewrite build_fn_eq. }
  assert (Hchain : chain n
    = (Ok (PFiles (flat_map splice outs2)),
       set_seq (fun s => s ++
         [_NBuild (mk_build_edge outs2 (br_name r2)
                     (PList (flat_map splice outs1))
                     (PFiles (PStr (br_executable_path r2) :: splice PNone))
                     PNone None PNone)])
         (set_name_count (_name_count n1 + Z.of_nat k2) n1))).
  { unfold chain. erewrite bind_Ok by exact Hfirst. cbv beta iota.
    rewrite (_Files_call_eq _ _ _ r2) by done. by erewrite build_fn_eq. }
  exists outs1, outs2. rewrite Hchain. simpl.
  split; [done|]. split; [by rewrite <-app_assoc|].
  intros -> ->.
  rewrite _normalize_outputs_falsy in Hn1 by done.
  injection Hn1 as <- Hk1.
  rewrite _normalize_outputs_falsy in Hn2 by done.
  injection Hn2 as <- _. split; [done|].
  replace (_name_count n + 2) with (_name_count n + 1 + 1) by lia.
  by rewrite Hk1.
Qed.

Lemma X17_chained_commands_witness :
  let chain : M pyval :=
    res ← _Files_call host0 [PStr "a.c"] "compile" PNone PNone PNone None
                      PNone;
    match res with
    | PFiles tokens =>
        _Files_call host0 tokens "compile" PNone PNone PNone None PNone
    | _ => raise AttributeError
    end in
  ∃ outs1 outs2,
    (chain session1).1 = Ok (PFiles (flat_map splice outs2))
    ∧ _seq (chain session1).2
      = _seq session1 ++
        [_NBuild (mk_build_edge outs1 "compile" (PList [PStr "a.c"])
                    (PFiles [PStr "/usr/bin/cc"]) PNone None PNone);
         _NBuild (mk_build_edge outs2 "compile"
                    (PList (flat_map splice outs1))
                    (PFiles [PStr "/usr/bin/cc"]) PNone None PNone)]
    ∧ (PNone = PNone → PNone = PNone →
       outs1 = [PStr "${builddir}/.ninju_1.tmp"]
       ∧ outs2 = [PStr "${builddir}/.ninju_2.tmp"]).
Proof.
  apply (X17_chained_commands host0 session1 "compile" "compile" compile0
           compile0 [PStr "a.c"] PNone PNone); by vm_compute.
Defined.

(** ** Paths *)

Lemma ends_with_sep_snoc s c :
  ends_with_sep (s +:+ String c "") = Ascii.eqb c "/"%char.
Proof.
  induction s as [|d s IH]; [done|].
  simpl. destruct s as [|e s]; [done|]. exact IH.
Qed.

Lemma string_app_assoc (s1 s2 s3 : string) :
  (s1 +:+ s2) +:+ s3 = s1 +:+ (s2 +:+ s3).
Proof.
  induction s1 as [|c s1 IH]; [done|].
  change (String c ((s1 +:+ s2) +:+ s3) = String c (s1 +:+ (s2 +:+ s3))).
  by rewrite IH.
Qed.

Lemma path_join_step_var key a :
  starts_with_sep a = false →
  path_join_step ("${" +:+ key +:+ "}") a = "${" +:+ key +:+ "}/" +:+ a.
Proof.
  intros Ha. unfold path_join_step. rewrite Ha.
  assert (E1 : String.eqb ("${" +:+ key +:+ "}") "" = false) by reflexivity.
  assert (E2 : ends_with_sep ("${" +:+ key +:+ "}") = false).
  { rewrite <-string_app_assoc. by rewrite ends_with_sep_snoc. }
  rewrite E1, E2. cbn [orb]. by rewrite !string_app_assoc.
Qed.

(** X18. [root], [builddir] and the function [dir] returns join their
    argument to their base with a slash, unless the argument starts with a
    slash: an absolute argument replaces the base.  [dir] given a variable
    name declares that variable with the directory as value and uses the
    reference to the variable as base from then on. *)
Theorem X18_paths (a key : string) (args : list string) (n : Ninju) :
  root [] = PFiles [PStr "${root}"]
  ∧ root [a] = PFiles [PStr (if starts_with_sep a then a
                             else "${root}/" +:+ a)]
  ∧ builddir [a] = PFiles [PStr (if starts_with_sep a then a
                                 else "${builddir}/" +:+ a)]
  ∧ (key ≠ "" →
     dir args (Some key) n
     = (Ok ("${" +:+ key +:+ "}"),
        set_seq (fun s => s ++
          [_NVar key (match args with
                      | [] => "${root}"
                      | _ => os_path_join "${root}" args
                      end) 0]) n)
     ∧ dirfn ("${" +:+ key +:+ "}") [a]
       = PFiles [PStr (if starts_with_sep a then a
                       else "${" +:+ key +:+ "}/" +:+ a)]).
Proof.
  split; [done|]. split; [|split].
  - unfold root, os_path_join, path_join_step. simpl.
    by destruct (starts_with_sep a).
  - unfold builddir, os_path_join, path_join_step. simpl.
    by destruct (starts_with_sep a).
  - intros Hkey. split.
    + unfold dir. apply String.eqb_neq in Hkey. by rewrite Hkey.
    + unfold dirfn, os_path_join. cbn [fold_left].
      destruct (starts_with_sep a) eqn:Ha.
      * unfold path_join_step. by rewrite Ha.
      * by rewrite path_join_step_var.
Qed.
